(** * TinyMathAPI: fixed-size vectors and matrices (Vector.hpp, Matrix.hpp)

    A shallow embedding of the two class templates [Vector<T,N>] and
    [Matrix<T,Rows,Cols>].  The scalar type [T] is a parameter, given by the
    operations the templates use on it; [std::array] is a list of the array's
    length whose unchecked [operator[]] is written out; the [for] loops are an
    indexed loop combinator over the mutated local; compound assignments act on
    a store of objects, because their operands are references. *)

From Stdlib Require Import ZArith Lia Floats Ring.
From coqutil Require Import Word.Interface Word.Properties Word.Naive Word.Bitwidth32.
From stdpp Require Import base list gmap strings.

(** ** Outcomes of a call

    [Value a]   : the call returns [a];
    [Undefined] : an unchecked [std::array::operator[]] went out of range
                  (undefined behaviour in C++);
    [Rejected]  : the call does not compile: a [static_assert] of the member
                  fails, or its body names something that does not
                  exist. *)
Inductive outcome (A : Type) : Type :=
| Value (a : A)
| Undefined
| Rejected.
Arguments Value {A} a.
Arguments Undefined {A}.
Arguments Rejected {A}.

#[export] Instance outcome_ret : MRet outcome := @Value.
#[export] Instance outcome_bind : MBind outcome := fun A B f m =>
  match m with
  | Value a => f a
  | Undefined => Undefined
  | Rejected => Rejected
  end.

(** [for (i = from; i < from + n; ++i) body], threading the mutated state. *)
Fixpoint for_from {St : Type} (from n : nat) (body : nat -> St -> outcome St)
    (s : St) : outcome St :=
  match n with
  | O => Value s
  | S n' => s' ← body from s; for_from (S from) n' body s'
  end.

(** [for (int i = 0; i < n; ++i) body] *)
Definition for_loop {St : Type} (n : nat) (body : nat -> St -> outcome St)
    (s : St) : outcome St :=
  for_from 0 n body s.

(** ** [std::array]: unchecked element access *)

(** [a[i]] read *)
Definition at_ {A : Type} (a : list A) (i : nat) : outcome A :=
  match a !! i with
  | Some x => Value x
  | None => Undefined
  end.

(** [a[i] = x] *)
Definition set_at {A : Type} (a : list A) (i : nat) (x : A) : outcome (list A) :=
  if decide (i < length a) then Value (<[i := x]> a) else Undefined.

(** [m[i][j]] read, on an array of arrays *)
Definition at2 {A : Type} (m : list (list A)) (i j : nat) : outcome A :=
  row ← at_ m i; at_ row j.

(** [m[i][j] = x] *)
Definition set_at2 {A : Type} (m : list (list A)) (i j : nat) (x : A)
    : outcome (list (list A)) :=
  row ← at_ m i; row' ← set_at row j x; set_at m i row'.

(** ** The scalar type [T]

    What the templates use of [T]: conversion of the [int] literals of the
    source ([0], [-1], [2]), the functors [std::plus<>], [std::minus<>],
    [std::multiplies<>] and [==]. *)
Class Scalar (T : Type) : Type := {
  lit : Z -> T;
  Tplus : T -> T -> T;
  Tminus : T -> T -> T;
  Tmultiplies : T -> T -> T;
  Teq : T -> T -> bool;
}.

(** What division and normalisation use besides: [std::divides<>],
    [std::sqrt] (converted back to [T]) and [>]. *)
Class DivScalar (T : Type) `{Scalar T} : Type := {
  Tdivides : T -> T -> T;
  Tsqrt : T -> T;
  Tgt : T -> T -> bool;
}.

(** *** [T = double]: IEEE 754 binary64 *)
Definition double_of_int (z : Z) : float :=
  match z with
  | Z0 => PrimFloat.zero
  | Zpos _ => PrimFloat.of_uint63 (Uint63.of_Z z)
  | Zneg p => PrimFloat.opp (PrimFloat.of_uint63 (Uint63.of_Z (Zpos p)))
  end.

#[export] Instance double_Scalar : Scalar float := {|
  lit := double_of_int;
  Tplus := PrimFloat.add;
  Tminus := PrimFloat.sub;
  Tmultiplies := PrimFloat.mul;
  Teq := PrimFloat.eqb;
|}.

#[export] Instance double_DivScalar : DivScalar float := {|
  Tdivides := PrimFloat.div;
  Tsqrt := PrimFloat.sqrt;
  Tgt := fun x y => PrimFloat.ltb y x;
|}.

(** *** [T = uint32_t]: arithmetic modulo 2^32 *)
Definition uint32 : Type := @word.rep 32 Naive.word32.

#[export] Instance uint32_Scalar : Scalar uint32 := {|
  lit := word.of_Z;
  Tplus := word.add;
  Tminus := word.sub;
  Tmultiplies := word.mul;
  Teq := word.eqb;
|}.

(** What [clamp] uses besides: [<], through [std::clamp] and [std::less]. *)
Class OrdScalar (T : Type) : Type := {
  Tlt : T -> T -> bool;
}.

#[export] Instance double_OrdScalar : OrdScalar float := {|
  Tlt := PrimFloat.ltb;
|}.

#[export] Instance uint32_OrdScalar : OrdScalar uint32 := {|
  Tlt := word.ltu;
|}.

(** What [print] sends to [std::cout], one item for each [<<]. *)
Inductive written (T : Type) : Type :=
| Text (s : string)
| Val (x : T).
Arguments Text {T} s.
Arguments Val {T} x.

(** the character ['\n'] *)
Definition newline : string := String (Ascii.ascii_of_nat 10) EmptyString.

(** *** Scalar types whose arithmetic is exact

    [+], [-], [*] form a commutative ring with [0] and [1], [-1] is the
    opposite of [1], and [==] decides equality.  [uint32_t] is one; [double]
    is not (it rounds, and [NaN == NaN] is false). *)
Class ExactScalar (T : Type) `{Scalar T} : Prop := {
  exact_ring :
    ring_theory (lit 0) (lit 1) Tplus Tmultiplies Tminus
                (fun x => Tminus (lit 0) x) (@eq T);
  exact_neg_one : lit (-1) = Tminus (lit 0) (lit 1);
  exact_eq : forall x y : T, Teq x y = true <-> x = y;
}.

(** ** Vector<T, N> *)
Module Vector.
Section Vector.
Context {T : Type} `{Scalar T}.

(** [std::array<T, N> data{}], and [data.fill(0)] *)
Definition zeros (N : nat) : list T := replicate N (lit 0).

(** [Vector() { data.fill(0); }] *)
Definition default (N : nat) : list T := zeros N.

(** [std::copy_n(first, count, result)] *)
Definition copy_n (first : list T) (count : nat) (result : list T)
    : outcome (list T) :=
  for_loop count (fun i r => x ← at_ first i; set_at r i x) result.

(** [Vector(std::initializer_list<T> values)] *)
Definition init (N : nat) (values : list T) : outcome (list T) :=
  copy_n values (Nat.min N (length values)) (zeros N).

(** [std::transform(first1, last1, first2, d_first, binary_op)] over the [N]
    elements of [first1], applied in order as the implementations do *)
Definition transform2 (N : nat) (first1 first2 d_first : list T)
    (binary_op : T -> T -> T) : outcome (list T) :=
  for_loop N (fun i d =>
    x ← at_ first1 i; y ← at_ first2 i; set_at d i (binary_op x y)) d_first.

(** [std::transform(first1, last1, d_first, unary_op)] *)
Definition transform1 (N : nat) (first1 d_first : list T)
    (unary_op : T -> T) : outcome (list T) :=
  for_loop N (fun i d => x ← at_ first1 i; set_at d i (unary_op x)) d_first.

(** [Vector apply(const Vector& other, Op op) const] *)
Definition apply (N : nat) (this other : list T) (op : T -> T -> T)
    : outcome (list T) :=
  transform2 N this other (default N) op.

(** [Vector apply_scalar(const T& scalar, Op op) const]; the result is a
    fresh local, so the referenced scalar keeps its value during the loop. *)
Definition apply_scalar (N : nat) (this : list T) (scalar : T)
    (op : T -> T -> T) : outcome (list T) :=
  transform1 N this (default N) (fun x => op x scalar).

(** [operator+ - *] on two vectors and on a vector and a scalar *)
Definition op_add N (this other : list T) := apply N this other Tplus.
Definition op_sub N (this other : list T) := apply N this other Tminus.
Definition op_mul N (this other : list T) := apply N this other Tmultiplies.
Definition op_add_scalar N (this : list T) (scalar : T) :=
  apply_scalar N this scalar Tplus.
Definition op_sub_scalar N (this : list T) (scalar : T) :=
  apply_scalar N this scalar Tminus.
Definition op_mul_scalar N (this : list T) (scalar : T) :=
  apply_scalar N this scalar Tmultiplies.

(** [Vector operator-() const { return *this * -1; }] *)
Definition op_neg N (this : list T) := op_mul_scalar N this (lit (-1)).

(** [operator==]: [data == other.data], that is [std::equal] with [==] *)
Fixpoint op_eq (this other : list T) : bool :=
  match this, other with
  | [], [] => true
  | x :: this', y :: other' => Teq x y && op_eq this' other'
  | _, _ => false
  end.

(** [T dot(const Vector& other) const] *)
Definition dot (N : nat) (this other : list T) : outcome T :=
  for_loop N (fun i result =>
    x ← at_ this i; y ← at_ other i;
    Value (Tplus result (Tmultiplies x y))) (lit 0).

(** [Vector cross(const Vector<U, 3>& other) const], at [U = T]; the
    [static_assert(N == 3)] is its first statement. *)
Definition cross (N : nat) (this other : list T) : outcome (list T) :=
  if decide (N = 3) then
    a0 ← at_ this 0; a1 ← at_ this 1; a2 ← at_ this 2;
    b0 ← at_ other 0; b1 ← at_ other 1; b2 ← at_ other 2;
    init N [ Tminus (Tmultiplies a1 b2) (Tmultiplies a2 b1);
             Tminus (Tmultiplies a2 b0) (Tmultiplies a0 b2);
             Tminus (Tmultiplies a0 b1) (Tmultiplies a1 b0) ]
  else Rejected.

(** [static Vector lerp(const Vector& start, const Vector& end, T t)] *)
Definition lerp (N : nat) (start end_ : list T) (t : T) : outcome (list T) :=
  d ← op_sub N end_ start; s ← op_mul_scalar N d t; op_add N start s.

(** *** Compound assignment: the receiver is an object of a store

    The operands of a compound assignment are references: [other] may be
    the receiver itself, and a [const T& scalar] may refer to one of its
    elements (as in [v /= v[0]]). *)
Local Abbreviation store := (gmap nat (list T)) (only parsing).

(** what a [const T&] is bound to *)
Inductive sref : Type :=
| Elem (p : nat) (i : nat)   (* element [i] of the vector at [p] *)
| Temp (x : T).              (* a temporary, or an object outside the store *)

Definition load (σ : store) (p i : nat) : outcome T :=
  match σ !! p with
  | Some d => at_ d i
  | None => Undefined
  end.

Definition store_at (σ : store) (p i : nat) (x : T) : outcome store :=
  match σ !! p with
  | Some d => d' ← set_at d i x; Value (<[p := d']> σ)
  | None => Undefined
  end.

Definition deref (σ : store) (r : sref) : outcome T :=
  match r with
  | Elem p i => load σ p i
  | Temp x => Value x
  end.

(** [Vector& apply_self(const Vector& other, Op op)]: [std::transform] with
    [data.begin()] as destination; returns [*this]. *)
Definition apply_self (N : nat) (this other : nat) (op : T -> T -> T)
    (σ : store) : outcome (nat * store) :=
  σ' ← for_loop N (fun i σ =>
          x ← load σ this i; y ← load σ other i;
          store_at σ this i (op x y)) σ;
  Value (this, σ').

(** [Vector& apply_scalar_self(const T& scalar, Op op)]: the lambda captures
    [scalar] by reference and reads it at every element. *)
Definition apply_scalar_self (N : nat) (this : nat) (scalar : sref)
    (op : T -> T -> T) (σ : store) : outcome (nat * store) :=
  σ' ← for_loop N (fun i σ =>
          x ← load σ this i; s ← deref σ scalar;
          store_at σ this i (op x s)) σ;
  Value (this, σ').

(** [operator+= -= *=] *)
Definition op_add_assign N this other := apply_self N this other Tplus.
Definition op_sub_assign N this other := apply_self N this other Tminus.
Definition op_mul_assign N this other := apply_self N this other Tmultiplies.
Definition op_add_assign_scalar N this scalar :=
  apply_scalar_self N this scalar Tplus.
Definition op_sub_assign_scalar N this scalar :=
  apply_scalar_self N this scalar Tminus.
Definition op_mul_assign_scalar N this scalar :=
  apply_scalar_self N this scalar Tmultiplies.

Section Division.
Context `{!DivScalar T}.

(** [operator/] and [operator/=], on two vectors and by a scalar *)
Definition op_div N (this other : list T) := apply N this other Tdivides.
Definition op_div_scalar N (this : list T) (scalar : T) :=
  apply_scalar N this scalar Tdivides.
Definition op_div_assign N this other := apply_self N this other Tdivides.
Definition op_div_assign_scalar N this scalar :=
  apply_scalar_self N this scalar Tdivides.

(** [T magnitude() const]: [std::sqrt] of [dot] of the receiver with itself *)
Definition magnitude (N : nat) (this : list T) : outcome T :=
  d ← dot N this this; Value (Tsqrt d).

(** [Vector normalized() const] *)
Definition normalized (N : nat) (this : list T) : outcome (list T) :=
  mag ← magnitude N this;
  if Tgt mag (lit 0) then op_div_scalar N this mag else Value this.
End Division.

(** [bool operator!=(const Vector& other) const] *)
Definition op_ne (this other : list T) : bool := negb (op_eq this other).

(** [operator[]], reading, and assigning through the reference it returns *)
Definition index (this : list T) (i : nat) : outcome T := at_ this i.
Definition index_assign (this : list T) (i : nat) (x : T) : outcome (list T) :=
  set_at this i x.

(** [Vector reflect(const Vector& normal) const] *)
Definition reflect (N : nat) (this normal : list T) : outcome (list T) :=
  d ← dot N this normal;
  s ← op_mul_scalar N normal (Tmultiplies (lit 2) d);
  op_sub N this s.

(** [void print() const]: the items sent to [std::cout] after [cout] *)
Definition print (N : nat) (this : list T) (cout : list (written T))
    : outcome (list (written T)) :=
  cout ← for_loop N (fun i cout =>
            x ← at_ this i;
            Value (cout ++ [Val x; Text (if decide (i < N - 1) then ", " else "")]))
          (cout ++ [Text "("]);
  Value (cout ++ [Text (")" +:+ newline)]).

Section Order.
Context `{!OrdScalar T}.

(** [std::clamp(v, lo, hi)]: undefined when [hi < lo], else [lo] when
    [v < lo], [hi] when [hi < v], and [v] otherwise. *)
Definition std_clamp (v lo hi : T) : outcome T :=
  if Tlt hi lo then Undefined
  else Value (if Tlt v lo then lo else if Tlt hi v then hi else v).

(** [Vector clamp(const T& minVal, const T& maxVal) const] *)
Definition clamp (N : nat) (this : list T) (minVal maxVal : T)
    : outcome (list T) :=
  for_loop N (fun i result =>
    x ← at_ this i; c ← std_clamp x minVal maxVal; set_at result i c)
    (default N).
End Order.

Section Distance.
Context `{!DivScalar T}.

(** [static T distance(const Vector& a, const Vector& b)] *)
Definition distance (N : nat) (a b : list T) : outcome T :=
  d ← op_sub N a b; magnitude N d.

(** [Vector& normalize()]: assigns [normalized()] to the receiver and
    returns it. *)
Definition normalize (N : nat) (this : nat) (σ : store)
    : outcome (nat * store) :=
  match σ !! this with
  | Some d => r ← normalized N d; Value (this, <[this := r]> σ)
  | None => Undefined
  end.
End Distance.

End Vector.
End Vector.

(** ** Matrix<T, Rows, Cols> *)
Module Matrix.
Section Matrix.
Context {T : Type} `{Scalar T}.

(** [Matrix()]: every row filled with 0 *)
Definition default (Rows Cols : nat) : list (list T) :=
  replicate Rows (replicate Cols (lit 0)).

(** [Matrix apply(const Matrix& other, Op op) const] *)
Definition apply (Rows Cols : nat) (this other : list (list T))
    (op : T -> T -> T) : outcome (list (list T)) :=
  for_loop Rows (fun i result =>
    for_loop Cols (fun j result =>
      x ← at2 this i j; y ← at2 other i j;
      set_at2 result i j (op x y)) result) (default Rows Cols).

(** [Matrix apply_scalar(const T& scalar, Op op) const] *)
Definition apply_scalar (Rows Cols : nat) (this : list (list T)) (scalar : T)
    (op : T -> T -> T) : outcome (list (list T)) :=
  for_loop Rows (fun i result =>
    for_loop Cols (fun j result =>
      x ← at2 this i j;
      set_at2 result i j (op x scalar)) result) (default Rows Cols).

(** [Matrix transpose() const]: the result is declared [Matrix], the
    receiver's own type, Rows x Cols. *)
Definition transpose (Rows Cols : nat) (this : list (list T))
    : outcome (list (list T)) :=
  for_loop Rows (fun i result =>
    for_loop Cols (fun j result =>
      x ← at2 this i j;
      set_at2 result j i x) result) (default Rows Cols).

(** [Vector<U, N> transform(const Vector<U, N>& vec) const], at [U = T] *)
Definition transform (Rows Cols N : nat) (this : list (list T))
    (vec : list T) : outcome (list T) :=
  if decide (Rows = N) then
    for_loop Rows (fun i result =>
      result ← set_at result i (lit 0);
      for_loop Cols (fun j result =>
        r ← at_ result i; a ← at2 this i j; v ← at_ vec j;
        set_at result i (Tplus r (Tmultiplies a v))) result) (Vector.default N)
  else Rejected.

(** The names the class [Matrix] declares: its data member and its named
    member functions.  [T], [Rows] and [Cols] are parameters of the template,
    not members of the class. *)
Definition members : list string :=
  ["data"; "transpose"; "transform"; "print"; "apply"; "apply_self";
   "apply_scalar"; "apply_scalar_self"; "multiply"].

(** A class member access [object.name] in a member of [Matrix]: the name is
    looked up among the members of the class, and the access does not compile
    when the class has none of that name. *)
Definition member {A : Type} (name : string) (value : A) : outcome A :=
  if decide (name ∈ members) then Value value else Rejected.

(** [Matrix multiply(const Matrix& other) const]; the bound of its second
    loop is the member access [other.Cols]. *)
Definition multiply (Rows Cols : nat) (this other : list (list T))
    : outcome (list (list T)) :=
  if decide (Cols = Rows) then
    other_Cols ← member "Cols" Cols;
    for_loop Rows (fun i result =>
      for_loop other_Cols (fun j result =>
        result ← set_at2 result i j (lit 0);
        for_loop Cols (fun k result =>
          r ← at2 result i j; a ← at2 this i k; b ← at2 other k j;
          set_at2 result i j (Tplus r (Tmultiplies a b))) result) result)
      (default Rows Cols)
  else Rejected.

(** [operator+ - *] on two matrices, [operator+ - *] with a scalar *)
Definition op_add R C (this other : list (list T)) := apply R C this other Tplus.
Definition op_sub R C (this other : list (list T)) := apply R C this other Tminus.
Definition op_mul R C (this other : list (list T)) := multiply R C this other.
Definition op_add_scalar R C (this : list (list T)) (scalar : T) :=
  apply_scalar R C this scalar Tplus.
Definition op_sub_scalar R C (this : list (list T)) (scalar : T) :=
  apply_scalar R C this scalar Tminus.
Definition op_mul_scalar R C (this : list (list T)) (scalar : T) :=
  apply_scalar R C this scalar Tmultiplies.

(** [operator==]: [data == other.data], row by row *)
Fixpoint op_eq (this other : list (list T)) : bool :=
  match this, other with
  | [], [] => true
  | r :: this', r' :: other' => Vector.op_eq r r' && op_eq this' other'
  | _, _ => false
  end.

(** *** Compound assignment on a store of matrices *)
Local Abbreviation store := (gmap nat (list (list T))) (only parsing).

Inductive sref : Type :=
| Elem (p : nat) (i j : nat)   (* the cell [i][j] of the matrix at [p] *)
| Temp (x : T).                (* a temporary, or an object outside the store *)

Definition load (σ : store) (p i j : nat) : outcome T :=
  match σ !! p with
  | Some d => at2 d i j
  | None => Undefined
  end.

Definition store_at (σ : store) (p i j : nat) (x : T) : outcome store :=
  match σ !! p with
  | Some d => d' ← set_at2 d i j x; Value (<[p := d']> σ)
  | None => Undefined
  end.

Definition deref (σ : store) (r : sref) : outcome T :=
  match r with
  | Elem p i j => load σ p i j
  | Temp x => Value x
  end.

(** [Matrix& apply_self(const Matrix& other, Op op)] *)
Definition apply_self (Rows Cols : nat) (this other : nat)
    (op : T -> T -> T) (σ : store) : outcome (nat * store) :=
  σ' ← for_loop Rows (fun i σ =>
          for_loop Cols (fun j σ =>
            x ← load σ this i j; y ← load σ other i j;
            store_at σ this i j (op x y)) σ) σ;
  Value (this, σ').

(** [Matrix& apply_scalar_self(const T& scalar, Op op)] *)
Definition apply_scalar_self (Rows Cols : nat) (this : nat) (scalar : sref)
    (op : T -> T -> T) (σ : store) : outcome (nat * store) :=
  σ' ← for_loop Rows (fun i σ =>
          for_loop Cols (fun j σ =>
            x ← load σ this i j; s ← deref σ scalar;
            store_at σ this i j (op x s)) σ) σ;
  Value (this, σ').

(** [operator+= -=], and [operator*=], which assigns [multiply(other)] *)
Definition op_add_assign R C this other := apply_self R C this other Tplus.
Definition op_sub_assign R C this other := apply_self R C this other Tminus.
Definition op_mul_assign (R C : nat) (this other : nat) (σ : store)
    : outcome (nat * store) :=
  match σ !! this, σ !! other with
  | Some a, Some b => r ← multiply R C a b; Value (this, <[this := r]> σ)
  | _, _ => Undefined
  end.
Definition op_add_assign_scalar R C this scalar :=
  apply_scalar_self R C this scalar Tplus.
Definition op_sub_assign_scalar R C this scalar :=
  apply_scalar_self R C this scalar Tminus.
Definition op_mul_assign_scalar R C this scalar :=
  apply_scalar_self R C this scalar Tmultiplies.

Section Division.
Context `{!DivScalar T}.

(** [operator/] and [operator/=] by a scalar *)
Definition op_div_scalar R C (this : list (list T)) (scalar : T) :=
  apply_scalar R C this scalar Tdivides.
Definition op_div_assign_scalar R C this scalar :=
  apply_scalar_self R C this scalar Tdivides.
End Division.

(** [Matrix(std::initializer_list<std::initializer_list<T>> values)]: [data{}]
    is zero-initialised, then [rowIt] and [colIt] are dereferenced with no
    check against the ends of the lists. *)
Definition init (Rows Cols : nat) (values : list (list T))
    : outcome (list (list T)) :=
  for_loop Rows (fun i data =>
    row ← at_ values i;
    for_loop Cols (fun j data => x ← at_ row j; set_at2 data i j x) data)
    (default Rows Cols).

(** [bool operator!=(const Matrix& other) const] *)
Definition op_ne (this other : list (list T)) : bool := negb (op_eq this other).

(** [operator[]]: the row at [index] *)
Definition index (this : list (list T)) (i : nat) : outcome (list T) :=
  at_ this i.

(** [void print() const] *)
Definition print (Rows Cols : nat) (this : list (list T))
    (cout : list (written T)) : outcome (list (written T)) :=
  for_loop Rows (fun i cout =>
    cout ← for_loop Cols (fun j cout =>
              x ← at2 this i j;
              Value (cout ++ [Val x; Text (if decide (j < Cols - 1) then ", " else "")]))
            (cout ++ [Text "[ "]);
    Value (cout ++ [Text (" ]" +:+ newline)])) cout.

End Matrix.
End Matrix.

(** ** What the specification's formulas mean *)

(** [Σ_{k < n} f k], summed from 0 in index order, as the loops accumulate *)
Definition sigma {T : Type} `{Scalar T} (n : nat) (f : nat -> T) : T :=
  fold_left (fun acc k => Tplus acc (f k)) (seq 0 n) (lit 0).

(** entry [i] of a vector and entry [i][j] of a matrix, 0 outside *)
Definition entry {T : Type} `{Scalar T} (v : list T) (i : nat) : T :=
  default (lit 0) (v !! i).
Definition entry2 {T : Type} `{Scalar T} (m : list (list T)) (i j : nat) : T :=
  entry (default [] (m !! i)) j.

(** the shapes [Vector<T,N>] and [Matrix<T,Rows,Cols>] fix *)
Definition is_vector {T : Type} (N : nat) (v : list T) : Prop :=
  length v = N.
Definition is_matrix {T : Type} (Rows Cols : nat) (m : list (list T)) : Prop :=
  length m = Rows /\ Forall (fun row => length row = Cols) m.

(** a vector and a matrix given by their entries; the loop invariants are
    stated on these *)
Definition tabulate {A : Type} (n : nat) (f : nat -> A) : list A :=
  f <$> seq 0 n.
Definition tabulate2 {A : Type} (R C : nat) (f : nat -> nat -> A)
    : list (list A) :=
  tabulate R (fun i => tabulate C (f i)).

(** [f] with the value at [i] replaced, and at [(i, j)] *)
Definition upd {A : Type} (f : nat -> A) (i : nat) (x : A) : nat -> A :=
  fun k => if decide (k = i) then x else f k.
Definition upd2 {A : Type} (f : nat -> nat -> A) (i j : nat) (x : A)
    : nat -> nat -> A :=
  fun k l => if decide (k = i /\ l = j) then x else f k l.

(** the [n] x [n] matrix with 1 on the diagonal and 0 elsewhere *)
Definition identity {T : Type} `{Scalar T} (n : nat) : list (list T) :=
  tabulate2 n n (fun i j => if decide (i = j) then lit 1 else lit 0).

(** the text a list of written items makes, [show] being how [<<] prints a
    scalar *)
Definition render {T : Type} (show : T -> string) (out : list (written T))
    : string :=
  foldr (fun it acc =>
           match it with
           | Text s => s +:+ acc
           | Val x => show x +:+ acc
           end) "" out.

Example init_short :
  Vector.init 4 [2.5; 3]%float = Value [2.5; 3; 0; 0]%float.
Proof. reflexivity. Qed.

Example transpose_2x2 :
  Matrix.transpose 2 2 [[1; 2]; [3; 4]]%float = Value [[1; 3]; [2; 4]]%float.
Proof. reflexivity. Qed.

Example transpose_1x2 :
  Matrix.transpose 1 2 [[1; 2]]%float = Undefined.
Proof. reflexivity. Qed.

Example transform_identity :
  Matrix.transform 3 3 3 [[1; 0; 0]; [0; 1; 0]; [0; 0; 1]]%float [7; 8; 9]%float
  = Value [7; 8; 9]%float.
Proof. reflexivity. Qed.

Example add_123_456 :
  Vector.op_add 3 [1; 2; 3]%float [4; 5; 6]%float = Value [5; 7; 9]%float.
Proof. reflexivity. Qed.

Example dot_orthogonal :
  Vector.dot 3 [1; 0; 0]%float [0; 1; 0]%float = Value 0%float.
Proof. reflexivity. Qed.

Example cross_xy :
  Vector.cross 3 [1; 0; 0]%float [0; 1; 0]%float = Value [0; 0; 1]%float.
Proof. reflexivity. Qed.

(** * Proofs *)

(** ** The outcome monad and the loop rule *)

(** Invariant rule: a body that keeps [P] and never fails makes the loop
    return a state in [P]. *)
Lemma for_from_inv {St : Type} (P : nat -> St -> Prop)
    (body : nat -> St -> outcome St) (n : nat) :
  forall (from : nat) (s : St),
    P from s ->
    (forall k t, from <= k < from + n -> P k t ->
       exists t', body k t = Value t' /\ P (S k) t') ->
    exists t, for_from from n body s = Value t /\ P (from + n) t.
Proof.
  induction n as [|n IH]; intros from s Hs Hbody; simpl.
  - exists s. rewrite Nat.add_0_r. auto.
  - destruct (Hbody from s) as (s' & Hb & Hs'); [lia | assumption |].
    rewrite Hb. simpl.
    destruct (IH (S from) s' Hs') as (t & Ht & HP).
    + intros k t Hk. apply Hbody. lia.
    + exists t. split; [exact Ht|]. replace (from + S n) with (S from + n) by lia.
      exact HP.
Qed.

Lemma for_loop_inv {St : Type} (P : nat -> St -> Prop)
    (body : nat -> St -> outcome St) (n : nat) (s : St) :
  P 0 s ->
  (forall k t, k < n -> P k t -> exists t', body k t = Value t' /\ P (S k) t') ->
  exists t, for_loop n body s = Value t /\ P n t.
Proof.
  intros H0 Hb. apply (for_from_inv P body n 0 s H0).
  intros k t Hk. apply Hb. lia.
Qed.

(** ** Arrays given by their entries *)

Lemma length_tabulate {A : Type} (n : nat) (f : nat -> A) :
  length (tabulate n f) = n.
Proof. unfold tabulate. rewrite length_fmap, length_seq. reflexivity. Qed.

Lemma lookup_tabulate {A : Type} (n : nat) (f : nat -> A) (i : nat) :
  i < n -> tabulate n f !! i = Some (f i).
Proof.
  intros Hi. unfold tabulate. rewrite list_lookup_fmap, lookup_seq_lt by exact Hi.
  reflexivity.
Qed.

Lemma lookup_tabulate_ge {A : Type} (n : nat) (f : nat -> A) (i : nat) :
  n <= i -> tabulate n f !! i = None.
Proof. intros Hi. apply lookup_ge_None_2. rewrite length_tabulate. exact Hi. Qed.

Lemma tabulate_ext {A : Type} (n : nat) (f g : nat -> A) :
  (forall i, i < n -> f i = g i) -> tabulate n f = tabulate n g.
Proof.
  intros Hfg. apply list_eq. intros i.
  destruct (decide (i < n)) as [Hi|Hi].
  - rewrite !lookup_tabulate by exact Hi. f_equal. auto.
  - rewrite !lookup_tabulate_ge by lia. reflexivity.
Qed.

Lemma tabulate_lookup {A : Type} (d : A) (l : list A) :
  l = tabulate (length l) (fun i => default d (l !! i)).
Proof.
  apply list_eq. intros i. destruct (decide (i < length l)) as [Hi|Hi].
  - rewrite lookup_tabulate by exact Hi.
    destruct (lookup_lt_is_Some_2 l i Hi) as [x Hx]. rewrite Hx. reflexivity.
  - rewrite lookup_tabulate_ge by lia. apply lookup_ge_None_2. lia.
Qed.

Lemma replicate_tabulate {A : Type} (n : nat) (x : A) :
  replicate n x = tabulate n (fun _ => x).
Proof.
  apply list_eq. intros i. destruct (decide (i < n)) as [Hi|Hi].
  - rewrite lookup_tabulate by exact Hi. apply lookup_replicate_2. exact Hi.
  - rewrite lookup_tabulate_ge by lia. apply lookup_ge_None_2.
    rewrite length_replicate. lia.
Qed.

Lemma at_tabulate {A : Type} (n : nat) (f : nat -> A) (i : nat) :
  i < n -> at_ (tabulate n f) i = Value (f i).
Proof. intros Hi. unfold at_. rewrite lookup_tabulate by exact Hi. reflexivity. Qed.

Lemma at_tabulate_ge {A : Type} (n : nat) (f : nat -> A) (i : nat) :
  n <= i -> at_ (tabulate n f) i = Undefined.
Proof. intros Hi. unfold at_. rewrite lookup_tabulate_ge by exact Hi. reflexivity. Qed.

Lemma insert_tabulate {A : Type} (n : nat) (f : nat -> A) (i : nat) (x : A) :
  <[i := x]> (tabulate n f) = tabulate n (upd f i x).
Proof.
  apply list_eq. intros k. unfold upd.
  destruct (decide (k < n)) as [Hk|Hk].
  - rewrite lookup_tabulate by exact Hk. destruct (decide (k = i)) as [->|Hne].
    + apply list_lookup_insert_eq. rewrite length_tabulate. exact Hk.
    + rewrite list_lookup_insert_ne by congruence. apply lookup_tabulate. exact Hk.
  - rewrite lookup_tabulate_ge by lia. apply lookup_ge_None_2.
    rewrite length_insert, length_tabulate. lia.
Qed.

Lemma set_at_tabulate {A : Type} (n : nat) (f : nat -> A) (i : nat) (x : A) :
  i < n -> set_at (tabulate n f) i x = Value (tabulate n (upd f i x)).
Proof.
  intros Hi. unfold set_at. rewrite length_tabulate.
  destruct (decide (i < n)); [|lia]. rewrite insert_tabulate. reflexivity.
Qed.

Lemma set_at_tabulate_ge {A : Type} (n : nat) (f : nat -> A) (i : nat) (x : A) :
  n <= i -> set_at (tabulate n f) i x = Undefined.
Proof.
  intros Hi. unfold set_at. rewrite length_tabulate.
  destruct (decide (i < n)); [lia|reflexivity].
Qed.

Lemma tabulate2_ext {A : Type} (R C : nat) (f g : nat -> nat -> A) :
  (forall i j, i < R -> j < C -> f i j = g i j) ->
  tabulate2 R C f = tabulate2 R C g.
Proof.
  intros Hfg. unfold tabulate2. apply tabulate_ext. intros i Hi.
  apply tabulate_ext. intros j Hj. auto.
Qed.

Lemma at2_tabulate2 {A : Type} (R C : nat) (f : nat -> nat -> A) (i j : nat) :
  i < R -> j < C -> at2 (tabulate2 R C f) i j = Value (f i j).
Proof.
  intros Hi Hj. unfold at2, tabulate2. rewrite at_tabulate by exact Hi.
  simpl. apply at_tabulate. exact Hj.
Qed.

Lemma set_at2_tabulate2 {A : Type} (R C : nat) (f : nat -> nat -> A)
    (i j : nat) (x : A) :
  i < R -> j < C ->
  set_at2 (tabulate2 R C f) i j x = Value (tabulate2 R C (upd2 f i j x)).
Proof.
  intros Hi Hj. unfold set_at2, tabulate2. rewrite at_tabulate by exact Hi. simpl.
  rewrite set_at_tabulate by exact Hj. simpl.
  rewrite set_at_tabulate by exact Hi. f_equal.
  apply tabulate_ext. intros k Hk. unfold upd at 1.
  destruct (decide (k = i)) as [->|Hne].
  - apply tabulate_ext. intros l Hl. unfold upd, upd2.
    destruct (decide (l = j)), (decide (i = i /\ l = j)); tauto.
  - apply tabulate_ext. intros l Hl. unfold upd2.
    destruct (decide (k = i /\ l = j)); tauto.
Qed.

Lemma is_vector_tabulate {T : Type} `{Scalar T} (N : nat) (v : list T) :
  is_vector N v -> v = tabulate N (entry v).
Proof. intros <-. apply tabulate_lookup. Qed.

Lemma is_matrix_tabulate2 {T : Type} `{Scalar T} (R C : nat) (m : list (list T)) :
  is_matrix R C m -> m = tabulate2 R C (entry2 m).
Proof.
  intros [HR HC]. subst R. unfold tabulate2.
  rewrite (tabulate_lookup [] m) at 1. apply tabulate_ext. intros i Hi.
  destruct (lookup_lt_is_Some_2 m i Hi) as [row Hrow].
  unfold entry2. rewrite Hrow. simpl.
  rewrite Forall_lookup in HC. specialize (HC i row Hrow). simpl in HC.
  subst C. apply tabulate_lookup.
Qed.

Lemma is_vector_of_tabulate {A : Type} (N : nat) (f : nat -> A) :
  is_vector N (tabulate N f).
Proof. apply length_tabulate. Qed.

Lemma is_matrix_of_tabulate2 {A : Type} (R C : nat) (f : nat -> nat -> A) :
  is_matrix R C (tabulate2 R C f).
Proof.
  split; [apply length_tabulate|]. apply Forall_lookup. intros i row Hrow.
  unfold tabulate2 in Hrow. destruct (decide (i < R)) as [Hi|Hi].
  - rewrite lookup_tabulate in Hrow by exact Hi. injection Hrow as <-.
    apply length_tabulate.
  - rewrite lookup_tabulate_ge in Hrow by lia. discriminate.
Qed.

Lemma entry_tabulate {T : Type} `{Scalar T} (N : nat) (f : nat -> T) (i : nat) :
  i < N -> entry (tabulate N f) i = f i.
Proof. intros Hi. unfold entry. rewrite lookup_tabulate by exact Hi. reflexivity. Qed.

Lemma entry2_tabulate2 {T : Type} `{Scalar T} (R C : nat) (f : nat -> nat -> T)
    (i j : nat) :
  i < R -> j < C -> entry2 (tabulate2 R C f) i j = f i j.
Proof.
  intros Hi Hj. unfold entry2, tabulate2. rewrite lookup_tabulate by exact Hi.
  simpl. apply entry_tabulate. exact Hj.
Qed.

(** ** Loops that fill a table

    The state of the loop holds a table ([embed z]); iteration [i] (or
    [(i, j)]) finds its own slot untouched and overwrites it with [g]. *)

Section FillLoops.
Context {A St : Type}.

Lemma fill_loop (embed : (nat -> A) -> St) (N : nat)
    (body : nat -> St -> outcome St) (g z : nat -> A) :
  (forall z1 z2, (forall i, i < N -> z1 i = z2 i) -> embed z1 = embed z2) ->
  (forall i z', i < N -> z' i = z i ->
     body i (embed z') = Value (embed (upd z' i (g i)))) ->
  for_loop N body (embed z) = Value (embed g).
Proof.
  intros Hext Hbody.
  destruct (for_loop_inv
    (fun k s => s = embed (fun i => if decide (i < k) then g i else z i))
    body N (embed z)) as (r & -> & ->); [| |f_equal].
  - apply Hext. intros i _. case_decide; [lia|reflexivity].
  - intros k t Hk ->. rewrite Hbody by first [assumption | case_decide; [lia|reflexivity]].
    eexists. split; [reflexivity|]. apply Hext. intros i _. unfold upd.
    repeat case_decide; subst; try reflexivity; lia.
  - apply Hext. intros i Hi. case_decide; [reflexivity|lia].
Qed.

Lemma fill2_loop_embed (embed : (nat -> nat -> A) -> St) (R C : nat)
    (body : nat -> nat -> St -> outcome St) (g z : nat -> nat -> A) :
  (forall z1 z2, (forall i j, i < R -> j < C -> z1 i j = z2 i j) ->
     embed z1 = embed z2) ->
  (forall i j z', i < R -> j < C -> z' i j = z i j ->
     body i j (embed z') = Value (embed (upd2 z' i j (g i j)))) ->
  for_loop R (fun i s => for_loop C (fun j s => body i j s) s) (embed z)
  = Value (embed g).
Proof.
  intros Hext Hbody.
  destruct (for_loop_inv
    (fun i s => s = embed (fun i' j' =>
                      if decide (i' < i) then g i' j' else z i' j'))
    (fun i s => for_loop C (fun j s => body i j s) s) R (embed z))
    as (r & -> & ->); [| |f_equal].
  - apply Hext. intros i j _ _. case_decide; [lia|reflexivity].
  - intros i t Hi ->.
    destruct (for_loop_inv
      (fun j s => s = embed (fun i' j' =>
                        if decide (i' < i \/ (i' = i /\ j' < j))
                        then g i' j' else z i' j'))
      (fun j s => body i j s) C
      (embed (fun i' j' => if decide (i' < i) then g i' j' else z i' j')))
      as (r & -> & ->).
    + apply Hext. intros i' j' _ _. repeat case_decide; try lia; reflexivity.
    + intros j t Hj ->.
      rewrite Hbody by first [assumption | case_decide; [lia|reflexivity]].
      eexists. split; [reflexivity|].
      apply Hext. intros i' j' _ _. unfold upd2.
      repeat case_decide; destruct_and?; subst; try reflexivity; try lia;
        exfalso; intuition lia.
    + eexists. split; [reflexivity|].
      apply Hext. intros i' j' _ Hj'. repeat case_decide; try lia; reflexivity.
  - apply Hext. intros i j Hi _. case_decide; [reflexivity|lia].
Qed.

End FillLoops.

(** ** Vector: what each member returns *)

Section VectorFacts.
Context {T : Type} `{Scalar T}.

Lemma zeros_tabulate (N : nat) : Vector.zeros N = tabulate N (fun _ => lit 0 : T).
Proof. apply replicate_tabulate. Qed.

Lemma default_tabulate (N : nat) :
  Vector.default N = tabulate N (fun _ => lit 0 : T).
Proof. apply replicate_tabulate. Qed.

Lemma at_entry (v : list T) (i : nat) :
  i < length v -> at_ v i = Value (entry v i).
Proof.
  intros Hi. unfold at_, entry.
  destruct (lookup_lt_is_Some_2 v i Hi) as [x ->]. reflexivity.
Qed.

(** [copy_n] overwrites the first [count] slots of the destination. *)
Lemma copy_n_tabulate (first : list T) (count N : nat) (z : nat -> T) :
  count <= length first -> count <= N ->
  Vector.copy_n first count (tabulate N z)
  = Value (tabulate N (fun i => if decide (i < count) then entry first i else z i)).
Proof.
  intros Hf HN. unfold Vector.copy_n.
  destruct (for_loop_inv
    (fun k r => r = tabulate N (fun i => if decide (i < k) then entry first i else z i))
    (fun i r => x ← at_ first i; set_at r i x) count (tabulate N z))
    as (r & -> & ->); [| |reflexivity].
  - apply tabulate_ext. intros i _. destruct (decide (i < 0)); [lia|reflexivity].
  - intros k t Hk ->. rewrite at_entry by lia. simpl.
    rewrite set_at_tabulate by lia. eexists. split; [reflexivity|].
    apply tabulate_ext. intros i _. unfold upd.
    repeat case_decide; try lia; congruence.
Qed.

Lemma init_tabulate (N : nat) (values : list T) :
  Vector.init N values
  = Value (tabulate N (fun i =>
             if decide (i < length values) then entry values i else lit 0)).
Proof.
  unfold Vector.init. rewrite zeros_tabulate, copy_n_tabulate by lia.
  f_equal. apply tabulate_ext. intros i Hi.
  repeat case_decide; try lia; reflexivity.
Qed.

Lemma apply_tabulate (N : nat) (f g : nat -> T) (op : T -> T -> T) :
  Vector.apply N (tabulate N f) (tabulate N g) op
  = Value (tabulate N (fun i => op (f i) (g i))).
Proof.
  unfold Vector.apply, Vector.transform2. rewrite default_tabulate.
  apply (fill_loop (tabulate N)); [apply tabulate_ext|].
  intros i z' Hi _. rewrite !at_tabulate by exact Hi.
  cbn [mbind outcome_bind]. apply set_at_tabulate. exact Hi.
Qed.

Lemma apply_scalar_tabulate (N : nat) (f : nat -> T) (s : T) (op : T -> T -> T) :
  Vector.apply_scalar N (tabulate N f) s op
  = Value (tabulate N (fun i => op (f i) s)).
Proof.
  unfold Vector.apply_scalar, Vector.transform1. rewrite default_tabulate.
  apply (fill_loop (tabulate N)); [apply tabulate_ext|].
  intros i z' Hi _. rewrite !at_tabulate by exact Hi.
  cbn [mbind outcome_bind]. apply set_at_tabulate. exact Hi.
Qed.

Lemma sigma_S (n : nat) (f : nat -> T) :
  sigma (S n) f = Tplus (sigma n f) (f n).
Proof. unfold sigma. rewrite seq_S, fold_left_app. reflexivity. Qed.

Lemma dot_tabulate (N : nat) (f g : nat -> T) :
  Vector.dot N (tabulate N f) (tabulate N g)
  = Value (sigma N (fun i => Tmultiplies (f i) (g i))).
Proof.
  unfold Vector.dot.
  destruct (for_loop_inv
    (fun k r => r = sigma k (fun i => Tmultiplies (f i) (g i)))
    (fun i result => x ← at_ (tabulate N f) i; y ← at_ (tabulate N g) i;
                     Value (Tplus result (Tmultiplies x y)))
    N (lit 0)) as (r & -> & ->); [reflexivity| |reflexivity].
  intros k t Hk ->. rewrite !at_tabulate by lia. simpl.
  eexists. split; [reflexivity|]. rewrite sigma_S. reflexivity.
Qed.

Lemma op_eq_fmap {A : Type} (f g : A -> T) (l : list A) :
  (forall x, x ∈ l -> Teq (f x) (g x) = true) ->
  Vector.op_eq (f <$> l) (g <$> l) = true.
Proof.
  induction l as [|a l IH]; intros Hl; [reflexivity|]. simpl.
  rewrite Hl by constructor. simpl. apply IH. intros x Hx. apply Hl.
  constructor. exact Hx.
Qed.

Lemma op_eq_tabulate (N : nat) (f g : nat -> T) :
  (forall i, i < N -> Teq (f i) (g i) = true) ->
  Vector.op_eq (tabulate N f) (tabulate N g) = true.
Proof.
  intros Hfg. apply op_eq_fmap. intros i Hi. apply Hfg.
  apply elem_of_seq in Hi. lia.
Qed.

End VectorFacts.

(** ** [uint32_t] is an exact scalar type *)

Lemma uint32_ring_theory :
  ring_theory (lit 0 : uint32) (lit 1) Tplus Tmultiplies Tminus
              (fun x => Tminus (lit 0) x) (@eq uint32).
Proof.
  pose proof (@word.ring_theory 32 Naive.word32 Naive.word32_ok) as R.
  destruct R as [R0 Rc Ra Rm1 Rmc Rma Rd Rs Ro].
  assert (Hopp : forall x : uint32, word.sub (word.of_Z 0) x = word.opp x).
  { intros x. rewrite Rs, R0. reflexivity. }
  constructor; intros; cbn [lit Tplus Tminus Tmultiplies uint32_Scalar];
    rewrite ?Hopp; auto.
Qed.

#[export] Instance uint32_ExactScalar : ExactScalar uint32.
Proof.
  constructor.
  - exact uint32_ring_theory.
  - cbn [lit Tminus uint32_Scalar]. change (-1)%Z with (0 - 1)%Z.
    apply (@word.ring_morph_sub 32 Naive.word32 Naive.word32_ok).
  - intros x y. cbn [Teq uint32_Scalar].
    destruct (@word.eqb_spec 32 Naive.word32 Naive.word32_ok x y); split;
      congruence.
Qed.

(** ** Construction *)

(** C5: an initializer list shorter than [N] leaves the trailing slots zero,
    a longer one is cut to its first [N] values, and the default-constructed
    vector has [N] components, all zero. *)
Theorem init_pads_and_truncates {T : Type} `{Scalar T} (N : nat) (values : list T) :
  Vector.init N values
  = Value (take N values ++ replicate (N - length values) (lit 0))
  /\ is_vector N (Vector.default N : list T)
  /\ (forall i, i < N -> at_ (Vector.default N : list T) i = Value (lit 0)).
Proof.
  split; [|split].
  - rewrite init_tabulate. f_equal. apply list_eq. intros i.
    destruct (decide (i < N)) as [Hi|Hi].
    + rewrite lookup_tabulate by exact Hi.
      destruct (decide (i < length values)) as [Hv|Hv].
      * rewrite lookup_app_l by (rewrite length_take; lia).
        rewrite lookup_take_lt by exact Hi. unfold entry.
        destruct (lookup_lt_is_Some_2 values i Hv) as [x ->]. reflexivity.
      * rewrite lookup_app_r by (rewrite length_take; lia).
        rewrite length_take. symmetry. apply lookup_replicate_2. lia.
    + rewrite lookup_tabulate_ge by lia. symmetry. apply lookup_ge_None_2.
      rewrite length_app, length_take, length_replicate. lia.
  - unfold is_vector. rewrite default_tabulate. apply length_tabulate.
  - intros i Hi. rewrite default_tabulate.
    apply (at_tabulate N (fun _ => lit 0)). exact Hi.
Qed.

(** ** What [double] arithmetic does satisfy

    From the specification of binary64 ([Prim2SF] and the [_spec] equations
    of the operations): [+] and [*] commute, [x * -1] is [-x], [p - q] and
    [-(q - p)] compare equal unless they are NaN, and [x == x] unless [x] is
    NaN. *)

Lemma double_add_comm (x y : float) : PrimFloat.add x y = PrimFloat.add y x.
Proof.
  apply Prim2SF_inj. rewrite !add_spec. unfold SF64add.
  destruct (Prim2SF x) as [sx|sx| |sx mx ex], (Prim2SF y) as [sy|sy| |sy my ey];
    try reflexivity; try (destruct sx, sy; reflexivity).
  unfold SFadd. rewrite (Z.min_comm ey ex). f_equal. apply Z.add_comm.
Qed.

Lemma double_mul_comm (x y : float) : PrimFloat.mul x y = PrimFloat.mul y x.
Proof.
  apply Prim2SF_inj. rewrite !mul_spec. unfold SF64mul.
  destruct (Prim2SF x) as [sx|sx| |sx mx ex], (Prim2SF y) as [sy|sy| |sy my ey];
    try reflexivity; try (destruct sx, sy; reflexivity).
  unfold SFmul. rewrite (xorb_comm sy sx), (Pos.mul_comm my mx), (Z.add_comm ey ex).
  reflexivity.
Qed.

Lemma double_ltb_irrefl (x : float) : PrimFloat.ltb x x = false.
Proof.
  rewrite ltb_spec. unfold SFltb, SFcompare.
  destruct (Prim2SF x) as [s|s| |s m e]; try reflexivity; try (destruct s; reflexivity).
  destruct s; rewrite Z.compare_refl, Pos.compare_cont_refl; reflexivity.
Qed.

Lemma SFeqb_refl (x : spec_float) : x <> S754_nan -> SFeqb x x = true.
Proof.
  destruct x as [s|s| |s m e]; intros Hx; try congruence;
    try (destruct s; reflexivity).
  unfold SFeqb, SFcompare. rewrite Z.compare_refl, Pos.compare_cont_refl.
  destruct s; reflexivity.
Qed.

Lemma SFeqb_not_nan (x y : spec_float) : SFeqb x y = true -> x <> S754_nan.
Proof. intros Hxy ->. discriminate. Qed.

Lemma is_nan_Prim2SF (x : float) :
  PrimFloat.is_nan x = false <-> Prim2SF x <> S754_nan.
Proof.
  unfold PrimFloat.is_nan. rewrite FloatAxioms.eqb_spec. split.
  - intros Hx. apply SFeqb_not_nan with (Prim2SF x).
    destruct (SFeqb _ _); [reflexivity|discriminate].
  - intros Hx. rewrite SFeqb_refl by exact Hx. reflexivity.
Qed.

Lemma double_eqb_refl (x : float) :
  PrimFloat.eqb x x = true <-> PrimFloat.is_nan x = false.
Proof.
  unfold PrimFloat.is_nan. destruct (PrimFloat.eqb x x); cbn [negb]; split; congruence.
Qed.

Lemma double_eqb_not_nan (x y : float) :
  PrimFloat.eqb x y = true -> PrimFloat.is_nan x = false.
Proof.
  rewrite FloatAxioms.eqb_spec. intros Hxy.
  apply is_nan_Prim2SF. apply SFeqb_not_nan with (Prim2SF y). exact Hxy.
Qed.

(** Rounding does not look at the sign. *)
Lemma binary_round_aux_true (m e : Z) (l : location) :
  binary_round_aux prec emax true m e l
  = SFopp (binary_round_aux prec emax false m e l).
Proof.
  unfold binary_round_aux.
  destruct (shr_fexp prec emax m e l) as [mrs' e'].
  destruct (shr_fexp prec emax _ e' loc_Exact) as [mrs'' e''].
  destruct (shr_m mrs''); [reflexivity| |reflexivity].
  destruct (Z.leb e'' _); reflexivity.
Qed.

Lemma SFopp_involutive (x : spec_float) : SFopp (SFopp x) = x.
Proof.
  destruct x as [s|s| |s m e]; cbn [SFopp]; rewrite ?negb_involutive; reflexivity.
Qed.

Lemma binary_normalize_opp (z e : Z) :
  binary_normalize prec emax z e false <> S754_nan ->
  SFeqb (binary_normalize prec emax z e false)
        (SFopp (binary_normalize prec emax (- z) e false)) = true.
Proof.
  destruct z as [|m|m]; [reflexivity| |].
  - change (- Z.pos m)%Z with (Z.neg m). cbn [binary_normalize].
    unfold binary_round. destruct (shl_align _ _ _) as [mz ez].
    rewrite binary_round_aux_true, SFopp_involutive. apply SFeqb_refl.
  - change (- Z.neg m)%Z with (Z.pos m). cbn [binary_normalize].
    unfold binary_round. destruct (shl_align _ _ _) as [mz ez].
    rewrite binary_round_aux_true. apply SFeqb_refl.
Qed.

(** [x - y] and [-(y - x)] compare equal, unless they are NaN. *)
Lemma SFsub_swap (x y : spec_float) :
  SF64sub x y <> S754_nan ->
  SFeqb (SF64sub x y) (SFopp (SF64sub y x)) = true.
Proof.
  unfold SF64sub.
  destruct x as [sx|sx| |sx mx ex], y as [sy|sy| |sy my ey]; cbn [SFsub SFopp];
    try congruence;
    try (destruct sx; try destruct sy; try reflexivity; congruence);
    try (destruct sy; try reflexivity; congruence); intros Hn.
  - apply SFeqb_refl. discriminate.
  - rewrite negb_involutive. apply SFeqb_refl. discriminate.
  - rewrite (Z.min_comm ey ex).
    set (X := cond_Zopp sx _) in *. set (Y := cond_Zopp sy _) in *.
    replace (Y - X)%Z with (- (X - Y))%Z by lia.
    apply binary_normalize_opp. exact Hn.
Qed.

(** A canonical mantissa is not shifted. *)
Lemma shr_fexp_canonical (m : positive) (e : Z) :
  fexp prec emax (Z.pos (digits2_pos m) + e) = e ->
  shr_fexp prec emax (Z.pos m) e loc_Exact
  = (Build_shr_record (Z.pos m) false false, e).
Proof.
  intros Hc. unfold shr_fexp. cbn [Zdigits2 shr_record_of_loc].
  rewrite Hc, Z.sub_diag. reflexivity.
Qed.

(** The product of a canonical mantissa with that of 1, [2^52], is shifted
    back by 52 bits, all of them zero. *)
Lemma shr_fexp_shifted (m : positive) (e : Z) :
  fexp prec emax (Z.pos (digits2_pos m) + e) = e ->
  shr_fexp prec emax (Z.pos (4503599627370496 * m)) (e + -52) loc_Exact
  = (Build_shr_record (Z.pos m) false false, e).
Proof.
  intros Hc. unfold shr_fexp.
  change (4503599627370496 * m)%positive with (Pos.iter xO m 52).
  cbn [Pos.iter Zdigits2 digits2_pos shr_record_of_loc].
  match goal with
  | |- context [fexp prec emax ?z] =>
      replace z with (Z.pos (digits2_pos m) + e)%Z
        by (rewrite ?Pos2Z.inj_succ; lia)
  end.
  rewrite Hc. replace (e - (e + -52))%Z with 52%Z by lia.
  cbn [shr iter_pos shr_1 orb]. f_equal. lia.
Qed.

Lemma SFmul_neg_one (x : spec_float) :
  SpecFloat.valid_binary prec emax x = true ->
  SF64mul x (Prim2SF (-1)%float) = SFopp x.
Proof.
  change (Prim2SF (-1)%float) with (S754_finite true 4503599627370496 (-52)).
  destruct x as [s|s| |s m e]; intros Hv; unfold SF64mul; cbn [SFmul SFopp];
    try reflexivity; try (destruct s; reflexivity).
  assert (xorb s true = negb s) as -> by (destruct s; reflexivity).
  cbn [SpecFloat.valid_binary] in Hv. unfold bounded in Hv.
  apply andb_prop in Hv as [Hc He]. unfold canonical_mantissa in Hc.
  apply Z.eqb_eq in Hc.
  rewrite Pos.mul_comm. unfold binary_round_aux.
  rewrite shr_fexp_shifted by exact Hc.
  cbn [shr_m loc_of_shr_record round_nearest_even].
  rewrite shr_fexp_canonical by exact Hc.
  cbn [shr_m]. rewrite He. reflexivity.
Qed.

(** [x * -1] is [-x], exactly. *)
Lemma double_mul_neg_one (x : float) :
  PrimFloat.mul x (-1)%float = PrimFloat.opp x.
Proof.
  apply Prim2SF_inj. rewrite mul_spec, opp_spec.
  apply SFmul_neg_one, Prim2SF_valid.
Qed.

(** [p - q == (q - p) * -1], unless [p - q] is NaN. *)
Lemma double_sub_swap (p q : float) :
  PrimFloat.is_nan (PrimFloat.sub p q) = false ->
  PrimFloat.eqb (PrimFloat.sub p q) (PrimFloat.mul (PrimFloat.sub q p) (-1)%float)
  = true.
Proof.
  intros Hn. apply is_nan_Prim2SF in Hn. rewrite sub_spec in Hn.
  rewrite double_mul_neg_one, FloatAxioms.eqb_spec, opp_spec, !sub_spec.
  apply SFsub_swap. exact Hn.
Qed.

(** [s + d * 0 == s], unless the sum is NaN. *)
Lemma double_add_mul_zero (s d : float) :
  PrimFloat.is_nan (PrimFloat.add s (PrimFloat.mul d 0%float)) = false ->
  PrimFloat.eqb (PrimFloat.add s (PrimFloat.mul d 0%float)) s = true.
Proof.
  rewrite is_nan_Prim2SF, FloatAxioms.eqb_spec, add_spec, mul_spec.
  change (Prim2SF 0%float) with (S754_zero false). unfold SF64add, SF64mul.
  destruct (Prim2SF s) as [ss|ss| |ss ms es], (Prim2SF d) as [sd|sd| |sd md ed];
    cbn [SFmul SFadd xorb]; intros Hn; try congruence;
    try (destruct ss; try destruct sd; reflexivity);
    try (apply SFeqb_refl; discriminate);
    try (destruct sd; cbn; apply SFeqb_refl; discriminate).
Qed.

(** [operator==] holds exactly when [==] holds at every index. *)
Lemma op_eq_fmap_iff {T : Type} `{Scalar T} {A : Type} (f g : A -> T) (l : list A) :
  Vector.op_eq (f <$> l) (g <$> l) = true
  <-> forall x, x ∈ l -> Teq (f x) (g x) = true.
Proof.
  split; [|apply op_eq_fmap].
  induction l as [|a l IH]; intros Hl x Hx; [inversion Hx|].
  cbn [fmap list_fmap Vector.op_eq] in Hl. apply andb_prop in Hl as [Hhead Htail].
  inversion Hx; subst; [exact Hhead|]. apply IH; assumption.
Qed.

Lemma op_eq_tabulate_iff {T : Type} `{Scalar T} (N : nat) (f g : nat -> T) :
  Vector.op_eq (tabulate N f) (tabulate N g) = true
  <-> forall i, i < N -> Teq (f i) (g i) = true.
Proof.
  unfold tabulate. rewrite op_eq_fmap_iff. split.
  - intros Hl i Hi. apply Hl, elem_of_seq. lia.
  - intros Hl i Hi. apply Hl. apply elem_of_seq in Hi. lia.
Qed.

Lemma Forall_tabulate {A : Type} (P : A -> Prop) (N : nat) (f : nat -> A) :
  Forall P (tabulate N f) <-> forall i, i < N -> P (f i).
Proof.
  unfold tabulate. rewrite Forall_fmap, Forall_forall. split.
  - intros Hl i Hi. apply (Hl i), elem_of_seq. lia.
  - intros Hl i Hi. apply Hl. apply elem_of_seq in Hi. lia.
Qed.

(** On [double], two vectors whose components agree up to the sign of zero
    wherever the first is not NaN are [==] exactly when the first has no NaN
    component. *)
Lemma double_op_eq_tabulate (N : nat) (f g : nat -> float) :
  (forall i, i < N -> PrimFloat.is_nan (f i) = false ->
             PrimFloat.eqb (f i) (g i) = true) ->
  Vector.op_eq (tabulate N f) (tabulate N g) = true
  <-> Forall (fun c => PrimFloat.is_nan c = false) (tabulate N f).
Proof.
  intros Hfg. rewrite op_eq_tabulate_iff, Forall_tabulate. split.
  - intros He i Hi. apply double_eqb_not_nan with (g i). apply He. exact Hi.
  - intros Hn i Hi. apply Hfg; [exact Hi|]. apply Hn. exact Hi.
Qed.


(** ** Identities that need exact scalar arithmetic *)

Section ExactFacts.
Context {T : Type} `{ExactScalar T}.

Add Ring T_ring : exact_ring.

Lemma Teq_refl (x : T) : Teq x x = true.
Proof. apply exact_eq. reflexivity. Qed.

Lemma add_sub_cancel (x y : T) : Tminus (Tplus x y) y = x.
Proof. ring. Qed.

Lemma add_comm (x y : T) : Tplus x y = Tplus y x.
Proof. ring. Qed.

Lemma cross_component (x y z w : T) :
  Tminus (Tmultiplies x y) (Tmultiplies z w)
  = Tmultiplies (Tminus (Tmultiplies w z) (Tmultiplies y x)) (lit (-1)).
Proof. rewrite exact_neg_one. ring. Qed.

Lemma lerp_at_0 (x y : T) :
  Tplus x (Tmultiplies (Tminus y x) (lit 0)) = x.
Proof. ring. Qed.

Lemma lerp_at_1 (x y : T) :
  Tplus x (Tmultiplies (Tminus y x) (lit 1)) = y.
Proof. ring. Qed.

End ExactFacts.

(** Rewrites a vector of known length as the table of its entries. *)
Ltac as_tabulate v Hv :=
  let f := fresh "f" in
  let E := fresh "E" in
  pose proof (is_vector_tabulate _ v Hv) as E;
  generalize dependent (entry v); intros f E; subst v.

(** C7 (amended): for all vectors [a], [b] of length [N] over an exact
    scalar type, [(a + b) - b == a] and [a + b == b + a]; for all vectors
    [x], [y] of length [N] of [double], [x + y] and [y + x] are the same
    vector, and [x + y == y + x] holds exactly when no component of [x + y]
    is NaN. *)
Theorem add_sub_identities {T : Type} `{Scalar T} (N : nat) (a b : list T)
    (x y : list float) :
  is_vector N a -> is_vector N b -> is_vector N x -> is_vector N y ->
  (ExactScalar T ->
   (exists r, (s ← Vector.op_add N a b; Vector.op_sub N s b) = Value r
              /\ Vector.op_eq r a = true)
   /\ (exists r1 r2, Vector.op_add N a b = Value r1
                     /\ Vector.op_add N b a = Value r2
                     /\ Vector.op_eq r1 r2 = true))
  /\ (exists r1 r2, Vector.op_add N x y = Value r1
                    /\ Vector.op_add N y x = Value r2
                    /\ r1 = r2
                    /\ (Vector.op_eq r1 r2 = true
                        <-> Forall (fun c => PrimFloat.is_nan c = false) r1)).
Proof.
  intros Ha Hb Hx Hy. split.
  - intros HE. as_tabulate a Ha. as_tabulate b Hb.
    unfold Vector.op_add, Vector.op_sub. rewrite !apply_tabulate.
    cbn [mbind outcome_bind]. rewrite apply_tabulate. split.
    + eexists. split; [reflexivity|]. apply op_eq_tabulate. intros i _.
      rewrite add_sub_cancel. apply Teq_refl.
    + do 2 eexists. split; [reflexivity|split; [reflexivity|]].
      apply op_eq_tabulate. intros i _. rewrite add_comm. apply Teq_refl.
  - as_tabulate x Hx. as_tabulate y Hy.
    unfold Vector.op_add. rewrite !apply_tabulate.
    do 2 eexists. split; [reflexivity|split; [reflexivity|]]. split.
    + apply tabulate_ext. intros i _. apply double_add_comm.
    + apply double_op_eq_tabulate. intros i _ Hn.
      cbn [Tplus double_Scalar] in *. rewrite (double_add_comm (f0 i) (f i)).
      apply double_eqb_refl. exact Hn.
Qed.

(** C8 (amended): [cross] is rejected at compile time for [N <> 3]; for
    3-vectors over an exact scalar type [cross(a, b) == -cross(b, a)]; for
    3-vectors [x], [y] of [double], [cross(x, y) == -cross(y, x)] holds
    exactly when no component of [cross(x, y)] is NaN. *)
Theorem cross_anticommutative {T : Type} `{Scalar T} (N : nat) (a b : list T)
    (x y : list float) :
  is_vector N a -> is_vector 3 b -> is_vector 3 x -> is_vector 3 y ->
  (ExactScalar T -> N = 3 ->
   exists c d, Vector.cross N a b = Value c
               /\ (z ← Vector.cross N b a; Vector.op_neg N z) = Value d
               /\ Vector.op_eq c d = true)
  /\ (N <> 3 -> Vector.cross N a b = Rejected)
  /\ (exists c d, Vector.cross 3 x y = Value c
                  /\ (z ← Vector.cross 3 y x; Vector.op_neg 3 z) = Value d
                  /\ (Vector.op_eq c d = true
                      <-> Forall (fun k => PrimFloat.is_nan k = false) c)).
Proof.
  intros Ha Hb Hx Hy. split; [|split].
  - intros HE ->. as_tabulate a Ha. as_tabulate b Hb.
    unfold Vector.cross. destruct (decide (3 = 3)) as [_|]; [|congruence].
    rewrite !at_tabulate by lia. cbn [mbind outcome_bind].
    rewrite !init_tabulate. cbn [mbind outcome_bind].
    unfold Vector.op_neg, Vector.op_mul_scalar. rewrite apply_scalar_tabulate.
    do 2 eexists. split; [reflexivity|split; [reflexivity|]].
    apply op_eq_tabulate. intros i Hi. apply exact_eq.
    destruct i as [|[|[|i]]]; [| | |lia]; cbn;
      repeat case_decide; try lia; apply cross_component.
  - intros HN. unfold Vector.cross. destruct (decide (N = 3)); congruence.
  - as_tabulate x Hx. as_tabulate y Hy.
    unfold Vector.cross. destruct (decide (3 = 3)) as [_|]; [|congruence].
    rewrite !at_tabulate by lia. cbn [mbind outcome_bind].
    rewrite !init_tabulate. cbn [mbind outcome_bind].
    unfold Vector.op_neg, Vector.op_mul_scalar. rewrite apply_scalar_tabulate.
    do 2 eexists. split; [reflexivity|split; [reflexivity|]].
    apply double_op_eq_tabulate. intros i Hi.
    destruct i as [|[|[|i]]]; [| | |lia]; cbn;
      repeat case_decide; try lia; intros Hn.
    + rewrite (double_mul_comm (f0 1) (f 2)), (double_mul_comm (f0 2) (f 1)).
      apply double_sub_swap. exact Hn.
    + rewrite (double_mul_comm (f0 2) (f 0)), (double_mul_comm (f0 0) (f 2)).
      apply double_sub_swap. exact Hn.
    + rewrite (double_mul_comm (f0 0) (f 1)), (double_mul_comm (f0 1) (f 0)).
      apply double_sub_swap. exact Hn.
Qed.

(** C9 (amended): [lerp(start, end, t)] is [start + (end - start) * t]
    componentwise for every [t], unclamped; over an exact scalar type
    [lerp(start, end, 0) == start] and [lerp(start, end, 1) == end]; for
    vectors [x], [y] of [double], [lerp(x, y, 0) == x] holds exactly when no
    component of [lerp(x, y, 0)] is NaN. *)
Theorem lerp_formula {T : Type} `{Scalar T} (N : nat) (start end_ : list T) (t : T)
    (x y : list float) :
  is_vector N start -> is_vector N end_ -> is_vector N x -> is_vector N y ->
  (exists r, Vector.lerp N start end_ t = Value r /\ is_vector N r
             /\ forall i, i < N ->
                  entry r i
                  = Tplus (entry start i)
                          (Tmultiplies (Tminus (entry end_ i) (entry start i)) t))
  /\ (ExactScalar T ->
      (exists r0, Vector.lerp N start end_ (lit 0) = Value r0
                  /\ Vector.op_eq r0 start = true)
      /\ (exists r1, Vector.lerp N start end_ (lit 1) = Value r1
                     /\ Vector.op_eq r1 end_ = true))
  /\ (exists r0, Vector.lerp N x y (lit 0) = Value r0
                 /\ (Vector.op_eq r0 x = true
                     <-> Forall (fun c => PrimFloat.is_nan c = false) r0)).
Proof.
  intros Hs He Hx Hy. as_tabulate start Hs. as_tabulate end_ He.
  as_tabulate x Hx. as_tabulate y Hy.
  unfold Vector.lerp, Vector.op_add, Vector.op_sub, Vector.op_mul_scalar.
  rewrite !apply_tabulate. cbn [mbind outcome_bind].
  rewrite !apply_scalar_tabulate. cbn [mbind outcome_bind].
  rewrite !apply_tabulate. split; [|split; [intros HE; split|]].
  - eexists. split; [reflexivity|]. split; [apply is_vector_of_tabulate|].
    intros i Hi. rewrite !entry_tabulate by exact Hi. reflexivity.
  - eexists. split; [reflexivity|]. apply op_eq_tabulate. intros i _.
    rewrite lerp_at_0. apply Teq_refl.
  - eexists. split; [reflexivity|]. apply op_eq_tabulate. intros i _.
    rewrite lerp_at_1. apply Teq_refl.
  - eexists. split; [reflexivity|]. apply double_op_eq_tabulate.
    intros i _. apply double_add_mul_zero.
Qed.

(** [add_sub_identities] at concrete vectors of [uint32_t] and of [double],
    its hypotheses checked by computation. *)
Lemma add_sub_identities_witness :
  is_vector 2 ([lit 1; lit 2] : list uint32)
  /\ is_vector 2 ([lit 4294967295; lit 7] : list uint32)
  /\ is_vector 2 ([1; 0.5]%float) /\ is_vector 2 ([0x1p53; 0.25]%float)
  /\ (exists r, (s ← Vector.op_add 2 [lit 1; lit 2] [lit 4294967295; lit 7];
                 Vector.op_sub 2 s [lit 4294967295; lit 7]) = Value r
                /\ Vector.op_eq r ([lit 1; lit 2] : list uint32) = true)
  /\ (exists r1 r2,
        Vector.op_add 2 ([lit 1; lit 2] : list uint32) [lit 4294967295; lit 7]
        = Value r1
        /\ Vector.op_add 2 [lit 4294967295; lit 7] [lit 1; lit 2] = Value r2
        /\ Vector.op_eq r1 r2 = true)
  /\ (exists r1 r2,
        Vector.op_add 2 ([1; 0.5]%float) ([0x1p53; 0.25]%float) = Value r1
        /\ Vector.op_add 2 ([0x1p53; 0.25]%float) ([1; 0.5]%float) = Value r2
        /\ r1 = r2
        /\ (Vector.op_eq r1 r2 = true
            <-> Forall (fun c => PrimFloat.is_nan c = false) r1)).
Proof.
  do 4 (split; [reflexivity|]).
  destruct (add_sub_identities 2 ([lit 1; lit 2] : list uint32)
              [lit 4294967295; lit 7] ([1; 0.5]%float) ([0x1p53; 0.25]%float))
    as [Hexact Hdouble]; try reflexivity.
  destruct (Hexact uint32_ExactScalar) as [Hround Hcomm].
  split; [exact Hround|]. split; [exact Hcomm|exact Hdouble].
Defined.

(** C7 fails for [T = double].  With [a = {1}] and [b = {2^53}] the sum
    [1 + 2^53] rounds to [2^53], so [(a + b) - b] is [{0}], not [a]; with
    [a = {inf}] and [b = {-inf}] both sums are NaN, and [NaN == NaN] is
    false. *)
Lemma add_sub_roundtrip_double_fails :
  ((s ← Vector.op_add 1 [1]%float [0x1p53]%float;
    Vector.op_sub 1 s [0x1p53]%float) = Value [0]%float
   /\ Vector.op_eq [0]%float [1]%float = false)
  /\ (Vector.op_add 1 [infinity]%float [neg_infinity]%float = Value [nan]%float
      /\ Vector.op_add 1 [neg_infinity]%float [infinity]%float = Value [nan]%float
      /\ Vector.op_eq [nan]%float [nan]%float = false).
Proof. repeat split; reflexivity. Qed.

(** [cross_anticommutative] at concrete vectors of [uint32_t] and of
    [double], its hypotheses checked by computation. *)
Lemma cross_anticommutative_witness :
  is_vector 3 ([lit 1; lit 0; lit 0] : list uint32)
  /\ is_vector 3 ([lit 0; lit 1; lit 0] : list uint32)
  /\ is_vector 3 ([1; 2; 3]%float) /\ is_vector 3 ([4; 5; 6]%float)
  /\ (exists c d,
        Vector.cross 3 ([lit 1; lit 0; lit 0] : list uint32) [lit 0; lit 1; lit 0]
        = Value c
        /\ (z ← Vector.cross 3 [lit 0; lit 1; lit 0] [lit 1; lit 0; lit 0];
            Vector.op_neg 3 z) = Value d
        /\ Vector.op_eq c d = true)
  /\ (exists c d,
        Vector.cross 3 ([1; 2; 3]%float) ([4; 5; 6]%float) = Value c
        /\ (z ← Vector.cross 3 ([4; 5; 6]%float) ([1; 2; 3]%float);
            Vector.op_neg 3 z) = Value d
        /\ (Vector.op_eq c d = true
            <-> Forall (fun k => PrimFloat.is_nan k = false) c)).
Proof.
  do 4 (split; [reflexivity|]).
  destruct (cross_anticommutative 3 ([lit 1; lit 0; lit 0] : list uint32)
              [lit 0; lit 1; lit 0] ([1; 2; 3]%float) ([4; 5; 6]%float))
    as (Hexact & _ & Hdouble); try reflexivity.
  split; [exact (Hexact uint32_ExactScalar eq_refl)|exact Hdouble].
Defined.

(** C8 fails for [T = double]: with [a = b = {2^600, 2^600, 0}] both products
    of the third component overflow to infinity, their difference is NaN, and
    [NaN == NaN] is false. *)
Lemma cross_anticommutative_double_fails :
  Vector.cross 3 [0x1p600; 0x1p600; 0]%float [0x1p600; 0x1p600; 0]%float
  = Value [0; 0; nan]%float
  /\ (x ← Vector.cross 3 [0x1p600; 0x1p600; 0]%float [0x1p600; 0x1p600; 0]%float;
      Vector.op_neg 3 x) = Value [-0; -0; nan]%float
  /\ Vector.op_eq [0; 0; nan]%float [-0; -0; nan]%float = false.
Proof. repeat split; reflexivity. Qed.

(** [lerp_formula] at concrete vectors of [uint32_t] and of [double], its
    hypotheses checked by computation. *)
Lemma lerp_formula_witness :
  is_vector 2 ([lit 10; lit 20] : list uint32)
  /\ is_vector 2 ([lit 30; lit 5] : list uint32)
  /\ is_vector 2 ([1; -0]%float) /\ is_vector 2 ([0x1p53; 3]%float)
  /\ (exists r, Vector.lerp 2 [lit 10; lit 20] [lit 30; lit 5] (lit 3 : uint32)
                = Value r /\ is_vector 2 r
                /\ forall i, i < 2 ->
                     entry r i
                     = Tplus (entry [lit 10; lit 20] i)
                         (Tmultiplies
                            (Tminus (entry [lit 30; lit 5] i)
                                    (entry [lit 10; lit 20] i)) (lit 3)))
  /\ (exists r0, Vector.lerp 2 [lit 10; lit 20] [lit 30; lit 5] (lit 0 : uint32)
                 = Value r0
                 /\ Vector.op_eq r0 [lit 10; lit 20] = true)
  /\ (exists r1, Vector.lerp 2 [lit 10; lit 20] [lit 30; lit 5] (lit 1 : uint32)
                 = Value r1
                 /\ Vector.op_eq r1 [lit 30; lit 5] = true)
  /\ (exists r0, Vector.lerp 2 ([1; -0]%float) ([0x1p53; 3]%float) (lit 0)
                 = Value r0
                 /\ (Vector.op_eq r0 ([1; -0]%float) = true
                     <-> Forall (fun c => PrimFloat.is_nan c = false) r0)).
Proof.
  do 4 (split; [reflexivity|]).
  destruct (lerp_formula 2 [lit 10; lit 20] [lit 30; lit 5] (lit 3 : uint32)
              ([1; -0]%float) ([0x1p53; 3]%float))
    as (Hf & He & Hd); try reflexivity.
  split; [exact Hf|]. destruct (He uint32_ExactScalar) as [H0 H1].
  split; [exact H0|]. split; [exact H1|exact Hd].
Defined.

(** C9 fails for [T = double].  With [start = {-1}] and [end = {2^53}] the
    difference [2^53 + 1] rounds to [2^53], so [lerp(start, end, 1)] is
    [{2^53 - 1}], not [end]; with [start = {-2^1023}] and [end = {2^1023}] the
    difference overflows to infinity, [inf * 0] is NaN, and
    [lerp(start, end, 0)] is [{NaN}], not [start]. *)
Lemma lerp_endpoints_double_fail :
  (Vector.lerp 1 [-1]%float [0x1p53]%float (lit 1)
   = Value [9007199254740991]%float
   /\ Vector.op_eq [9007199254740991]%float [0x1p53]%float = false)
  /\ (Vector.lerp 1 [-0x1p1023]%float [0x1p1023]%float (lit 0) = Value [nan]%float
      /\ Vector.op_eq [nan]%float [-0x1p1023]%float = false).
Proof. repeat split; reflexivity. Qed.

(** ** Matrix: what each member returns *)

Section MatrixFacts.
Context {T : Type} `{Scalar T}.

Lemma default_tabulate2 (R C : nat) :
  Matrix.default R C = tabulate2 R C (fun _ _ => lit 0 : T).
Proof.
  unfold Matrix.default, tabulate2. rewrite replicate_tabulate.
  apply tabulate_ext. intros i _. apply replicate_tabulate.
Qed.

(** Two nested loops whose body writes the cell [(i, j)]: they fill the
    matrix row by row. *)
Lemma fill2_loop (R C : nat)
    (body : nat -> nat -> list (list T) -> outcome (list (list T)))
    (g z : nat -> nat -> T) :
  (forall i j z', i < R -> j < C ->
     body i j (tabulate2 R C z') = Value (tabulate2 R C (upd2 z' i j (g i j)))) ->
  for_loop R (fun i m => for_loop C (fun j m => body i j m) m) (tabulate2 R C z)
  = Value (tabulate2 R C g).
Proof.
  intros Hbody. apply (fill2_loop_embed (tabulate2 R C)).
  - apply tabulate2_ext.
  - intros i j z' Hi Hj _. apply Hbody; assumption.
Qed.

Lemma matrix_apply_tabulate2 (R C : nat) (f g : nat -> nat -> T) (op : T -> T -> T) :
  Matrix.apply R C (tabulate2 R C f) (tabulate2 R C g) op
  = Value (tabulate2 R C (fun i j => op (f i j) (g i j))).
Proof.
  unfold Matrix.apply. rewrite default_tabulate2.
  apply (fill2_loop R C
    (fun i j result => x ← at2 (tabulate2 R C f) i j;
                       y ← at2 (tabulate2 R C g) i j;
                       set_at2 result i j (op x y))).
  intros i j z' Hi Hj. rewrite !at2_tabulate2 by assumption.
  cbn [mbind outcome_bind]. apply set_at2_tabulate2; assumption.
Qed.

Lemma matrix_apply_scalar_tabulate2 (R C : nat) (f : nat -> nat -> T) (s : T)
    (op : T -> T -> T) :
  Matrix.apply_scalar R C (tabulate2 R C f) s op
  = Value (tabulate2 R C (fun i j => op (f i j) s)).
Proof.
  unfold Matrix.apply_scalar. rewrite default_tabulate2.
  apply (fill2_loop R C
    (fun i j result => x ← at2 (tabulate2 R C f) i j;
                       set_at2 result i j (op x s))).
  intros i j z' Hi Hj. rewrite !at2_tabulate2 by assumption.
  cbn [mbind outcome_bind]. apply set_at2_tabulate2; assumption.
Qed.

(** [multiply] names [other.Cols], and [Matrix] has no member [Cols]. *)
Lemma multiply_rejected (R C : nat) (a b : list (list T)) :
  Matrix.multiply R C a b = Rejected.
Proof. unfold Matrix.multiply. destruct (decide (C = R)); reflexivity. Qed.

(** On a square matrix the writes [result[j][i]] stay in range. *)
Lemma transpose_tabulate2 (n : nat) (f : nat -> nat -> T) :
  Matrix.transpose n n (tabulate2 n n f)
  = Value (tabulate2 n n (fun i j => f j i)).
Proof.
  unfold Matrix.transpose. rewrite default_tabulate2.
  destruct (for_loop_inv
    (fun i m => m = tabulate2 n n (fun r c =>
                      if decide (c < i) then f c r else lit 0))
    (fun i result => for_loop n (fun j result =>
       x ← at2 (tabulate2 n n f) i j; set_at2 result j i x) result)
    n (tabulate2 n n (fun _ _ => lit 0)))
    as (r & -> & ->); [| |f_equal].
  - apply tabulate2_ext. intros r c _ _. case_decide; [lia|reflexivity].
  - intros i t Hi ->.
    destruct (for_loop_inv
      (fun j m => m = tabulate2 n n (fun r c =>
                        if decide (c < i \/ (c = i /\ r < j))
                        then f c r else lit 0))
      (fun j result => x ← at2 (tabulate2 n n f) i j; set_at2 result j i x) n
      (tabulate2 n n (fun r c => if decide (c < i) then f c r else lit 0)))
      as (r & -> & ->).
    + apply tabulate2_ext. intros r c _ _. repeat case_decide; try lia; reflexivity.
    + intros j t Hj ->. rewrite at2_tabulate2 by assumption.
      cbn [mbind outcome_bind]. rewrite set_at2_tabulate2 by assumption.
      eexists. split; [reflexivity|].
      apply tabulate2_ext. intros r c _ _. unfold upd2.
      repeat case_decide; destruct_and?; subst; try reflexivity; try lia;
        exfalso; intuition lia.
    + eexists. split; [reflexivity|].
      apply tabulate2_ext. intros r c Hr _. repeat case_decide; try lia; reflexivity.
  - apply tabulate2_ext. intros r c _ Hc. case_decide; [reflexivity|lia].
Qed.

(** The accumulation [result[i] = 0; for j: result[i] += h j]. *)
Lemma accumulate_slot (N n : nat) (i : nat) (z : nat -> T)
    (body : nat -> list T -> outcome (list T)) (h : nat -> T) :
  i < N ->
  (forall k d, k < n -> body k d = (r ← at_ d i; set_at d i (Tplus r (h k)))) ->
  (result ← set_at (tabulate N z) i (lit 0); for_loop n body result)
  = Value (tabulate N (upd z i (sigma n h))).
Proof.
  intros Hi Hbody. rewrite set_at_tabulate by assumption.
  cbn [mbind outcome_bind].
  destruct (for_loop_inv
    (fun k d => d = tabulate N (upd z i (sigma k h)))
    body n (tabulate N (upd z i (lit 0)))) as (r & -> & ->);
    [reflexivity| |reflexivity].
  intros k t Hk ->. rewrite Hbody, at_tabulate by assumption.
  cbn [mbind outcome_bind]. rewrite set_at_tabulate by assumption.
  eexists. split; [reflexivity|]. apply tabulate_ext. intros i' _.
  unfold upd. repeat case_decide; try reflexivity; try tauto.
  rewrite sigma_S. reflexivity.
Qed.

Lemma transform_tabulate (R C : nat) (f : nat -> nat -> T) (v : nat -> T) :
  C <= R ->
  Matrix.transform R C R (tabulate2 R C f) (tabulate R v)
  = Value (tabulate R (fun i => sigma C (fun j => Tmultiplies (f i j) (v j)))).
Proof.
  intros HCR. unfold Matrix.transform.
  destruct (decide (R = R)) as [_|]; [|congruence].
  rewrite default_tabulate.
  destruct (for_loop_inv
    (fun i d => d = tabulate R (fun i' =>
                      if decide (i' < i)
                      then sigma C (fun j => Tmultiplies (f i' j) (v j))
                      else lit 0))
    (fun i result =>
       result ← set_at result i (lit 0);
       for_loop C (fun j result =>
         r ← at_ result i; a ← at2 (tabulate2 R C f) i j; x ← at_ (tabulate R v) j;
         set_at result i (Tplus r (Tmultiplies a x))) result)
    R (tabulate R (fun _ => lit 0)))
    as (r & -> & ->); [| |f_equal].
  - apply tabulate_ext. intros i _. case_decide; [lia|reflexivity].
  - intros i t Hi ->.
    rewrite (accumulate_slot R C i _ _ (fun j => Tmultiplies (f i j) (v j)));
      [|assumption|].
    + eexists. split; [reflexivity|]. apply tabulate_ext. intros i' _.
      unfold upd. repeat case_decide; subst; try reflexivity; lia.
    + intros k d Hk. destruct (at_ d i) as [r| |]; try reflexivity.
      cbn [mbind outcome_bind].
      rewrite at2_tabulate2, at_tabulate by (try assumption; lia). reflexivity.
  - apply tabulate_ext. intros i Hi. case_decide; [reflexivity|lia].
Qed.

Lemma transform_rejected (R C N : nat) (m : list (list T)) (v : list T) :
  R <> N -> Matrix.transform R C N m v = Rejected.
Proof. intros HRN. unfold Matrix.transform. destruct (decide (R = N)); congruence. Qed.

End MatrixFacts.

(** Rewrites a matrix of known shape as the table of its entries. *)
Ltac as_tabulate2 m Hm :=
  let f := fresh "f" in
  let E := fresh "E" in
  pose proof (is_matrix_tabulate2 _ _ m Hm) as E;
  generalize dependent (entry2 m); intros f E; subst m.

(** ** Matrix members *)

(** C1, on the code: the transpose of the 1 x 2 matrix [{{1, 2}}] writes
    [result[1][0]] into a result that has one row. *)
Theorem transpose_1x2_out_of_range :
  is_matrix 1 2 ([[lit 1; lit 2]] : list (list uint32))
  /\ Matrix.transpose 1 2 ([[lit 1; lit 2]] : list (list uint32)) = Undefined.
Proof. split; [split; [reflexivity|repeat constructor]|reflexivity]. Qed.

(** On square matrices [transpose()] returns the matrix with
    [result[j][i] = self[i][j]]. *)
Theorem transpose_square {T : Type} `{Scalar T} (n : nat) (m : list (list T)) :
  is_matrix n n m ->
  exists result, Matrix.transpose n n m = Value result /\ is_matrix n n result
    /\ forall i j, i < n -> j < n -> at2 result j i = at2 m i j.
Proof.
  intros Hm. as_tabulate2 m Hm. rewrite transpose_tabulate2.
  eexists. split; [reflexivity|]. split; [apply is_matrix_of_tabulate2|].
  intros i j Hi Hj. rewrite !at2_tabulate2 by assumption. reflexivity.
Qed.

(** [transpose_square] at a concrete input, its hypotheses checked by computation. *)
Lemma transpose_square_witness :
  is_matrix 2 2 ([[1; 2]; [3; 4]]%float)
  /\ exists result, Matrix.transpose 2 2 ([[1; 2]; [3; 4]]%float) = Value result
       /\ is_matrix 2 2 result
       /\ forall i j, i < 2 -> j < 2 ->
            at2 result j i = at2 ([[1; 2]; [3; 4]]%float) i j.
Proof.
  assert (Hm : is_matrix 2 2 ([[1; 2]; [3; 4]]%float))
    by (split; [reflexivity|repeat constructor]).
  split; [exact Hm|]. exact (transpose_square 2 _ Hm).
Defined.

(** C2, on the code: [operator*] compiles for no shape, square or not, and
    computes no product.  It returns [multiply(other)], whose second loop is
    bounded by [other.Cols]; [Cols] is a template parameter, the class has no
    member of that name, and instantiating [multiply] fails on it whatever
    [Rows] and [Cols] are.  [operator*=], which assigns [multiply(other)],
    fails with it. *)
Theorem multiply_does_not_compile {T : Type} `{Scalar T} (Rows Cols : nat)
    (lhs rhs : list (list T)) :
  Matrix.member "Cols" Cols = Rejected
  /\ Matrix.multiply Rows Cols lhs rhs = Rejected
  /\ Matrix.op_mul Rows Cols lhs rhs = Rejected
  /\ (forall (σ : gmap nat (list (list T))) (this other : nat),
        σ !! this = Some lhs -> σ !! other = Some rhs ->
        Matrix.op_mul_assign Rows Cols this other σ = Rejected).
Proof.
  split; [reflexivity|]. split; [apply multiply_rejected|].
  split; [apply multiply_rejected|].
  intros σ this other Hthis Hother. unfold Matrix.op_mul_assign.
  rewrite Hthis, Hother, multiply_rejected. reflexivity.
Qed.

(** [multiply_does_not_compile] on the square matrices [{{1, 2}, {3, 4}}] and
    [{{5, 6}, {7, 8}}] of [double]. *)
Lemma multiply_does_not_compile_witness :
  Matrix.op_mul 2 2 ([[1; 2]; [3; 4]]%float) ([[5; 6]; [7; 8]]%float) = Rejected
  /\ Matrix.op_mul_assign 2 2 0 1
       ({[ 0 := [[1; 2]; [3; 4]]%float; 1 := [[5; 6]; [7; 8]]%float ]}
          : gmap nat (list (list float)))
     = Rejected.
Proof.
  destruct (multiply_does_not_compile 2 2 ([[1; 2]; [3; 4]]%float)
              ([[5; 6]; [7; 8]]%float)) as (_ & _ & Hmul & Hassign).
  split; [exact Hmul|]. apply Hassign; reflexivity.
Defined.

(** C3 (amended): [transform] is rejected at compile time unless the vector's
    length equals [Rows]; when it does and [Cols <= Rows], the result has
    length [Rows] and [result[i] = Σ_j self[i][j] * vector[j]], [j] over the
    columns. *)
Theorem transform_rows_governs {T : Type} `{Scalar T} (Rows Cols N : nat)
    (m : list (list T)) (vec : list T) :
  (Rows <> N -> Matrix.transform Rows Cols N m vec = Rejected)
  /\ (Rows = N -> Cols <= Rows -> is_matrix Rows Cols m -> is_vector N vec ->
      exists result, Matrix.transform Rows Cols N m vec = Value result
        /\ is_vector Rows result
        /\ forall i, i < Rows ->
             entry result i
             = sigma Cols (fun j => Tmultiplies (entry2 m i j) (entry vec j))).
Proof.
  split; [apply transform_rejected|].
  intros <- HCR Hm Hv. as_tabulate2 m Hm. as_tabulate vec Hv.
  rewrite transform_tabulate by assumption.
  eexists. split; [reflexivity|]. split; [apply is_vector_of_tabulate|].
  intros i Hi. rewrite entry_tabulate by assumption. reflexivity.
Qed.

(** [transform_rows_governs] at a concrete input, its hypotheses checked by computation. *)
Lemma transform_rows_governs_witness :
  (3 <> 2 ->
   Matrix.transform 3 2 2 ([[1; 2]; [3; 4]; [5; 6]]%float) ([7; 8]%float) = Rejected)
  /\ exists result,
       Matrix.transform 3 2 3 ([[1; 2]; [3; 4]; [5; 6]]%float) ([7; 8; 9]%float)
       = Value result
       /\ is_vector 3 result
       /\ forall i, i < 3 ->
            entry result i
            = sigma 2 (fun j =>
                Tmultiplies (entry2 ([[1; 2]; [3; 4]; [5; 6]]%float) i j)
                            (entry ([7; 8; 9]%float) j)).
Proof.
  split.
  - exact (proj1 (transform_rows_governs 3 2 2 _ _)).
  - apply (proj2 (transform_rows_governs 3 2 3 _ _)); [reflexivity|lia| |reflexivity].
    split; [reflexivity|repeat constructor].
Defined.

(** C3 fails when [Cols > Rows]: for a 1 x 2 matrix and a vector of length 1
    the static check passes and the inner loop reads [vec[1]]. *)
Lemma transform_1x2_out_of_range :
  is_matrix 1 2 ([[lit 1; lit 2]] : list (list uint32))
  /\ is_vector 1 ([lit 5] : list uint32)
  /\ Matrix.transform 1 2 1 ([[lit 1; lit 2]] : list (list uint32)) [lit 5]
     = Undefined.
Proof.
  split; [split; [reflexivity|repeat constructor]|]. split; reflexivity.
Qed.

(** ** A loop that fails *)

(** If the body keeps [P] up to iteration [k] and is undefined there, so is
    the loop. *)
Lemma for_from_undefined {St : Type} (P : nat -> St -> Prop)
    (body : nat -> St -> outcome St) (k n : nat) :
  forall (from : nat) (s : St),
    from <= k < from + n ->
    P from s ->
    (forall i t, from <= i < k -> P i t ->
       exists t', body i t = Value t' /\ P (S i) t') ->
    (forall t, P k t -> body k t = Undefined) ->
    for_from from n body s = Undefined.
Proof.
  induction n as [|n IH]; intros from s Hk Hs Hstep Hfail; [lia|]. simpl.
  destruct (decide (from = k)) as [->|Hne].
  - rewrite Hfail by exact Hs. reflexivity.
  - destruct (Hstep from s) as (s' & -> & Hs'); [lia|exact Hs|].
    cbn [mbind outcome_bind]. apply IH; [lia|exact Hs'| |exact Hfail].
    intros i t Hi. apply Hstep. lia.
Qed.

Lemma for_loop_undefined {St : Type} (P : nat -> St -> Prop)
    (body : nat -> St -> outcome St) (k n : nat) (s : St) :
  k < n -> P 0 s ->
  (forall i t, i < k -> P i t -> exists t', body i t = Value t' /\ P (S i) t') ->
  (forall t, P k t -> body k t = Undefined) ->
  for_loop n body s = Undefined.
Proof.
  intros Hk Hs Hstep Hfail.
  apply (for_from_undefined P body k n 0 s); [lia|exact Hs| |exact Hfail].
  intros i t Hi. apply Hstep. lia.
Qed.

Lemma set_at2_tabulate2_row_out {A : Type} (R C : nat) (f : nat -> nat -> A)
    (i j : nat) (x : A) :
  R <= i -> set_at2 (tabulate2 R C f) i j x = Undefined.
Proof.
  intros Hi. unfold set_at2, tabulate2. rewrite at_tabulate_ge by exact Hi.
  reflexivity.
Qed.

Lemma set_at2_tabulate2_col_out {A : Type} (R C : nat) (f : nat -> nat -> A)
    (i j : nat) (x : A) :
  i < R -> C <= j -> set_at2 (tabulate2 R C f) i j x = Undefined.
Proof.
  intros Hi Hj. unfold set_at2, tabulate2. rewrite at_tabulate by exact Hi.
  cbn [mbind outcome_bind]. rewrite set_at_tabulate_ge by exact Hj. reflexivity.
Qed.

(** On every matrix that is not square (and not empty) [transpose()] leaves
    the bounds of its result, which has the receiver's shape. *)
Theorem transpose_nonsquare_undefined {T : Type} `{Scalar T} (Rows Cols : nat)
    (m : list (list T)) :
  Rows <> Cols -> 0 < Rows -> 0 < Cols -> is_matrix Rows Cols m ->
  Matrix.transpose Rows Cols m = Undefined.
Proof.
  intros Hne HR HC Hm. as_tabulate2 m Hm.
  unfold Matrix.transpose. rewrite default_tabulate2.
  set (P := fun (_ : nat) (r : list (list T)) => exists z, r = tabulate2 Rows Cols z).
  destruct (decide (Rows < Cols)) as [Hlt|Hge].
  - (* the first row already writes below the last row of the result *)
    apply (for_loop_undefined P _ 0); [lia|eexists; reflexivity|intros; lia|].
    intros t [z ->].
    apply (for_loop_undefined P _ Rows); [lia|eexists; reflexivity| |].
    + intros j t Hj [z' ->]. rewrite at2_tabulate2 by lia.
      cbn [mbind outcome_bind]. rewrite set_at2_tabulate2 by lia.
      eexists. split; [reflexivity|]. eexists. reflexivity.
    + intros t [z' ->]. rewrite at2_tabulate2 by lia.
      cbn [mbind outcome_bind]. apply set_at2_tabulate2_row_out. lia.
  - (* row [Cols] of the receiver writes past the end of a result row *)
    apply (for_loop_undefined P _ Cols); [lia|eexists; reflexivity| |].
    + intros i t Hi [z ->].
      destruct (for_loop_inv P
        (fun j result => x ← at2 (tabulate2 Rows Cols f) i j; set_at2 result j i x)
        Cols (tabulate2 Rows Cols z)) as (r & -> & Hr); [eexists; reflexivity| |].
      * intros j t Hj [z' ->]. rewrite at2_tabulate2 by lia.
        cbn [mbind outcome_bind]. rewrite set_at2_tabulate2 by lia.
        eexists. split; [reflexivity|]. eexists. reflexivity.
      * eexists. split; [reflexivity|exact Hr].
    + intros t [z ->].
      apply (for_loop_undefined P _ 0); [lia|eexists; reflexivity|intros; lia|].
      intros t [z' ->]. rewrite at2_tabulate2 by lia.
      cbn [mbind outcome_bind]. apply set_at2_tabulate2_col_out; lia.
Qed.

(** [transpose_nonsquare_undefined] at a concrete input, its hypotheses checked by computation. *)
Lemma transpose_nonsquare_undefined_witness :
  Matrix.transpose 3 2 ([[1; 2]; [3; 4]; [5; 6]]%float) = Undefined.
Proof.
  apply transpose_nonsquare_undefined; [lia|lia|lia|].
  split; [reflexivity|repeat constructor].
Defined.

(** ** Division and normalisation *)

Section DivisionFacts.
Context {T : Type} `{DivScalar T}.

Lemma sigma_zero (n : nat) :
  Tmultiplies (lit 0 : T) (lit 0) = lit 0 -> Tplus (lit 0 : T) (lit 0) = lit 0 ->
  sigma n (fun _ => Tmultiplies (lit 0 : T) (lit 0)) = lit 0.
Proof.
  intros Hm Hp. induction n as [|n IH]; [reflexivity|].
  rewrite sigma_S, IH, Hm, Hp. reflexivity.
Qed.

Lemma magnitude_tabulate (N : nat) (f : nat -> T) :
  Vector.magnitude N (tabulate N f)
  = Value (Tsqrt (sigma N (fun i => Tmultiplies (f i) (f i)))).
Proof. unfold Vector.magnitude. rewrite dot_tabulate. reflexivity. Qed.

(** The zero vector has magnitude [sqrt 0], which is not [> 0]. *)
Lemma normalized_default (N : nat) :
  Tmultiplies (lit 0 : T) (lit 0) = lit 0 ->
  Tplus (lit 0 : T) (lit 0) = lit 0 ->
  Tsqrt (lit 0 : T) = lit 0 ->
  Tgt (lit 0 : T) (lit 0) = false ->
  Vector.normalized N (Vector.default N) = Value (Vector.default N : list T).
Proof.
  intros Hm Hp Hs Hg. unfold Vector.normalized.
  rewrite default_tabulate, magnitude_tabulate, sigma_zero, Hs by assumption.
  cbn [mbind outcome_bind]. rewrite Hg. reflexivity.
Qed.

(** C4: [normalized(a)] is [a] with every component divided by
    [magnitude(a)] when [magnitude(a) > 0], and [a] itself otherwise, the
    one branch of the function; the zero vector takes the second branch
    and comes back unchanged. *)
Theorem normalized_guard (N : nat) (a : list T) :
  is_vector N a ->
  (exists mag,
     Vector.magnitude N a = Value mag
     /\ mag = Tsqrt (sigma N (fun i => Tmultiplies (entry a i) (entry a i)))
     /\ (Tgt mag (lit 0) = true ->
         Vector.normalized N a = Vector.op_div_scalar N a mag
         /\ Vector.normalized N a
            = Value (tabulate N (fun i => Tdivides (entry a i) mag)))
     /\ (Tgt mag (lit 0) = false -> Vector.normalized N a = Value a))
  /\ (Tmultiplies (lit 0 : T) (lit 0) = lit 0 ->
      Tplus (lit 0 : T) (lit 0) = lit 0 ->
      Tsqrt (lit 0 : T) = lit 0 ->
      Tgt (lit 0 : T) (lit 0) = false ->
      Vector.normalized N (Vector.default N) = Value (Vector.default N : list T)).
Proof.
  intros Ha. split.
  - as_tabulate a Ha. eexists. split; [apply magnitude_tabulate|].
    split; [reflexivity|]. unfold Vector.normalized.
    rewrite magnitude_tabulate. cbn [mbind outcome_bind]. split.
    + intros ->. split; [reflexivity|].
      unfold Vector.op_div_scalar. apply apply_scalar_tabulate.
    + intros ->. reflexivity.
  - apply normalized_default.
Qed.

End DivisionFacts.

(** [normalized_guard] at a concrete input, its hypotheses checked by computation. *)
Lemma normalized_guard_witness :
  is_vector 2 ([3; 4]%float)
  /\ (exists mag,
        Vector.magnitude 2 ([3; 4]%float) = Value mag
        /\ mag = Tsqrt (sigma 2 (fun i => Tmultiplies (entry ([3; 4]%float) i)
                                                      (entry ([3; 4]%float) i)))
        /\ (Tgt mag (lit 0) = true ->
            Vector.normalized 2 ([3; 4]%float)
            = Vector.op_div_scalar 2 ([3; 4]%float) mag
            /\ Vector.normalized 2 ([3; 4]%float)
               = Value (tabulate 2 (fun i => Tdivides (entry ([3; 4]%float) i) mag)))
        /\ (Tgt mag (lit 0) = false ->
            Vector.normalized 2 ([3; 4]%float) = Value ([3; 4]%float)))
  /\ Vector.normalized 2 (Vector.default 2) = Value (Vector.default 2 : list float).
Proof.
  destruct (normalized_guard 2 ([3; 4]%float)) as [Hn Hz]; [reflexivity|].
  split; [reflexivity|]. split; [exact Hn|].
  apply Hz; reflexivity.
Defined.

(** For [T = double] the zero vector of any length is its own normalisation. *)
Theorem normalized_zero_double (N : nat) :
  Vector.normalized N (Vector.default N) = Value (Vector.default N : list float).
Proof. apply normalized_default; reflexivity. Qed.

(** Dividing by a zero [double] gives infinities and NaN, as values. *)
Example div_by_zero_double :
  Vector.op_div_scalar 3 ([1; -1; 0]%float) 0%float
  = Value ([infinity; neg_infinity; nan]%float).
Proof. reflexivity. Qed.

(** ** Compound assignment *)

Lemma tabulate_inj {A : Type} (N : nat) (f g : nat -> A) (i : nat) :
  tabulate N f = tabulate N g -> i < N -> f i = g i.
Proof.
  intros E Hi. assert (Some (f i) = Some (g i)) as [= ->]; [|reflexivity].
  rewrite <- !(lookup_tabulate N) by exact Hi. rewrite E. reflexivity.
Qed.

Section VectorStore.
Context {T : Type} `{Scalar T}.
Implicit Types σ : gmap nat (list T).

Lemma load_this σ (p N : nat) (z : nat -> T) (i : nat) :
  i < N -> Vector.load (<[p := tabulate N z]> σ) p i = Value (z i).
Proof.
  intros Hi. unfold Vector.load. rewrite lookup_insert_eq.
  apply at_tabulate. exact Hi.
Qed.

Lemma load_other σ (p q : nat) (d : list T) (i : nat) :
  q <> p -> Vector.load (<[p := d]> σ) q i = Vector.load σ q i.
Proof. intros Hq. unfold Vector.load. rewrite lookup_insert_ne by congruence. reflexivity. Qed.

Lemma store_at_this σ (p N : nat) (z : nat -> T) (i : nat) (x : T) :
  i < N ->
  Vector.store_at (<[p := tabulate N z]> σ) p i x
  = Value (<[p := tabulate N (upd z i x)]> σ).
Proof.
  intros Hi. unfold Vector.store_at. rewrite lookup_insert_eq.
  rewrite set_at_tabulate by exact Hi. cbn [mbind outcome_bind].
  rewrite insert_insert_eq. reflexivity.
Qed.

Lemma embed_vector_ext σ (p N : nat) (z1 z2 : nat -> T) :
  (forall i, i < N -> z1 i = z2 i) ->
  <[p := tabulate N z1]> σ = <[p := tabulate N z2]> σ.
Proof. intros Hz. f_equal. apply tabulate_ext. exact Hz. Qed.

(** [apply_self] leaves in the receiver what [apply] returns on the
    operands' values at the call, also when [other] is the receiver, and
    returns the receiver. *)
Lemma apply_self_refines σ (N this other : nat) (a b : list T) (op : T -> T -> T) :
  σ !! this = Some a -> σ !! other = Some b ->
  is_vector N a -> is_vector N b ->
  exists r, Vector.apply N a b op = Value r
            /\ Vector.apply_self N this other op σ = Value (this, <[this := r]> σ).
Proof.
  intros Hthis Hother Ha Hb. as_tabulate a Ha. as_tabulate b Hb.
  rewrite apply_tabulate. eexists. split; [reflexivity|].
  unfold Vector.apply_self.
  pose proof (fill_loop (fun z' => <[this := tabulate N z']> σ) N
    (fun i σ => x ← Vector.load σ this i; y ← Vector.load σ other i;
                Vector.store_at σ this i (op x y))
    (fun i => op (f i) (f0 i)) f (embed_vector_ext σ this N)) as HL.
  cbv beta in HL. rewrite (insert_id σ this _ Hthis) in HL.
  rewrite HL; [reflexivity|].
  intros i z' Hi Hz. rewrite load_this by exact Hi. cbn [mbind outcome_bind].
  assert (Vector.load (<[this := tabulate N z']> σ) other i = Value (f0 i)) as ->.
  { destruct (decide (other = this)) as [->|Hne].
    - rewrite load_this by exact Hi. rewrite Hz. f_equal.
      apply (tabulate_inj N); [congruence|exact Hi].
    - rewrite load_other by exact Hne. unfold Vector.load. rewrite Hother.
      apply at_tabulate. exact Hi. }
  cbn [mbind outcome_bind]. rewrite Hz. apply store_at_this. exact Hi.
Qed.

(** The same for [apply_scalar_self], when the scalar is not an element of
    the receiver. *)
Lemma apply_scalar_self_refines σ (N this : nat) (a : list T)
    (scalar : Vector.sref) (x : T) (op : T -> T -> T) :
  σ !! this = Some a -> is_vector N a ->
  Vector.deref σ scalar = Value x ->
  (forall i, scalar <> Vector.Elem this i) ->
  exists r, Vector.apply_scalar N a x op = Value r
            /\ Vector.apply_scalar_self N this scalar op σ
               = Value (this, <[this := r]> σ).
Proof.
  intros Hthis Ha Hx Hfar. as_tabulate a Ha.
  rewrite apply_scalar_tabulate. eexists. split; [reflexivity|].
  unfold Vector.apply_scalar_self.
  pose proof (fill_loop (fun z' => <[this := tabulate N z']> σ) N
    (fun i σ => y ← Vector.load σ this i; s ← Vector.deref σ scalar;
                Vector.store_at σ this i (op y s))
    (fun i => op (f i) x) f (embed_vector_ext σ this N)) as HL.
  cbv beta in HL. rewrite (insert_id σ this _ Hthis) in HL.
  rewrite HL; [reflexivity|].
  intros i z' Hi Hz. rewrite load_this by exact Hi. cbn [mbind outcome_bind].
  assert (Vector.deref (<[this := tabulate N z']> σ) scalar = Value x) as ->.
  { destruct scalar as [p k|y]; [|exact Hx]. cbn [Vector.deref] in *.
    rewrite load_other; [exact Hx|]. intros ->. exact (Hfar k eq_refl). }
  cbn [mbind outcome_bind]. rewrite Hz. apply store_at_this. exact Hi.
Qed.

End VectorStore.

Lemma tabulate2_inj {A : Type} (R C : nat) (f g : nat -> nat -> A) (i j : nat) :
  tabulate2 R C f = tabulate2 R C g -> i < R -> j < C -> f i j = g i j.
Proof.
  intros E Hi Hj. apply (tabulate_inj C (f i) (g i) j); [|exact Hj].
  apply (tabulate_inj R (fun i => tabulate C (f i)) (fun i => tabulate C (g i)) i);
    [exact E|exact Hi].
Qed.

Section MatrixStore.
Context {T : Type} `{Scalar T}.
Implicit Types σ : gmap nat (list (list T)).

Lemma matrix_load_this σ (p R C : nat) (z : nat -> nat -> T) (i j : nat) :
  i < R -> j < C -> Matrix.load (<[p := tabulate2 R C z]> σ) p i j = Value (z i j).
Proof.
  intros Hi Hj. unfold Matrix.load. rewrite lookup_insert_eq.
  apply at2_tabulate2; assumption.
Qed.

Lemma matrix_load_other σ (p q : nat) (d : list (list T)) (i j : nat) :
  q <> p -> Matrix.load (<[p := d]> σ) q i j = Matrix.load σ q i j.
Proof.
  intros Hq. unfold Matrix.load. rewrite lookup_insert_ne by congruence.
  reflexivity.
Qed.

Lemma matrix_store_at_this σ (p R C : nat) (z : nat -> nat -> T) (i j : nat) (x : T) :
  i < R -> j < C ->
  Matrix.store_at (<[p := tabulate2 R C z]> σ) p i j x
  = Value (<[p := tabulate2 R C (upd2 z i j x)]> σ).
Proof.
  intros Hi Hj. unfold Matrix.store_at. rewrite lookup_insert_eq.
  rewrite set_at2_tabulate2 by assumption. cbn [mbind outcome_bind].
  rewrite insert_insert_eq. reflexivity.
Qed.

Lemma embed_matrix_ext σ (p R C : nat) (z1 z2 : nat -> nat -> T) :
  (forall i j, i < R -> j < C -> z1 i j = z2 i j) ->
  <[p := tabulate2 R C z1]> σ = <[p := tabulate2 R C z2]> σ.
Proof. intros Hz. f_equal. apply tabulate2_ext. exact Hz. Qed.

Lemma matrix_apply_self_refines σ (R C this other : nat) (a b : list (list T))
    (op : T -> T -> T) :
  σ !! this = Some a -> σ !! other = Some b ->
  is_matrix R C a -> is_matrix R C b ->
  exists r, Matrix.apply R C a b op = Value r
            /\ Matrix.apply_self R C this other op σ
               = Value (this, <[this := r]> σ).
Proof.
  intros Hthis Hother Ha Hb. as_tabulate2 a Ha. as_tabulate2 b Hb.
  rewrite matrix_apply_tabulate2. eexists. split; [reflexivity|].
  unfold Matrix.apply_self.
  pose proof (fill2_loop_embed (fun z' => <[this := tabulate2 R C z']> σ) R C
    (fun i j σ => x ← Matrix.load σ this i j; y ← Matrix.load σ other i j;
                  Matrix.store_at σ this i j (op x y))
    (fun i j => op (f i j) (f0 i j)) f (embed_matrix_ext σ this R C)) as HL.
  cbv beta in HL. rewrite (insert_id σ this _ Hthis) in HL.
  rewrite HL; [reflexivity|].
  intros i j z' Hi Hj Hz. rewrite matrix_load_this by assumption.
  cbn [mbind outcome_bind].
  assert (Matrix.load (<[this := tabulate2 R C z']> σ) other i j
          = Value (f0 i j)) as ->.
  { destruct (decide (other = this)) as [->|Hne].
    - rewrite matrix_load_this by assumption. rewrite Hz. f_equal.
      apply (tabulate2_inj R C); [congruence|assumption|assumption].
    - rewrite matrix_load_other by exact Hne. unfold Matrix.load. rewrite Hother.
      apply at2_tabulate2; assumption. }
  cbn [mbind outcome_bind]. rewrite Hz. apply matrix_store_at_this; assumption.
Qed.

Lemma matrix_apply_scalar_self_refines σ (R C this : nat) (a : list (list T))
    (scalar : Matrix.sref) (x : T) (op : T -> T -> T) :
  σ !! this = Some a -> is_matrix R C a ->
  Matrix.deref σ scalar = Value x ->
  (forall i j, scalar <> Matrix.Elem this i j) ->
  exists r, Matrix.apply_scalar R C a x op = Value r
            /\ Matrix.apply_scalar_self R C this scalar op σ
               = Value (this, <[this := r]> σ).
Proof.
  intros Hthis Ha Hx Hfar. as_tabulate2 a Ha.
  rewrite matrix_apply_scalar_tabulate2. eexists. split; [reflexivity|].
  unfold Matrix.apply_scalar_self.
  pose proof (fill2_loop_embed (fun z' => <[this := tabulate2 R C z']> σ) R C
    (fun i j σ => y ← Matrix.load σ this i j; s ← Matrix.deref σ scalar;
                  Matrix.store_at σ this i j (op y s))
    (fun i j => op (f i j) x) f (embed_matrix_ext σ this R C)) as HL.
  cbv beta in HL. rewrite (insert_id σ this _ Hthis) in HL.
  rewrite HL; [reflexivity|].
  intros i j z' Hi Hj Hz. rewrite matrix_load_this by assumption.
  cbn [mbind outcome_bind].
  assert (Matrix.deref (<[this := tabulate2 R C z']> σ) scalar = Value x) as ->.
  { destruct scalar as [p k l|y]; [|exact Hx]. cbn [Matrix.deref] in *.
    rewrite matrix_load_other; [exact Hx|]. intros ->. exact (Hfar k l eq_refl). }
  cbn [mbind outcome_bind]. rewrite Hz. apply matrix_store_at_this; assumption.
Qed.

End MatrixStore.

(** ** Division, in all its forms *)

Section DivisionForms.
Context {T : Type} `{DivScalar T}.

(** C6 (amended): every division of the library is the raw componentwise
    [std::divides], for every divisor, zero included: [operator/] by a scalar
    and by a vector, on a vector and on a matrix, returns the quotients as a
    value, and [operator/=] leaves them in the receiver (the scalar not
    being an element of the receiver); none has a check or an error
    outcome. *)
Theorem division_is_unchecked (N Rows Cols : nat) (a b : list T)
    (m : list (list T)) (scalar : T)
    (σ : gmap nat (list T)) (μ : gmap nat (list (list T)))
    (this other that : nat) (sv : Vector.sref) (sm : Matrix.sref) :
  is_vector N a -> is_vector N b -> is_matrix Rows Cols m ->
  σ !! this = Some a -> σ !! other = Some b -> μ !! that = Some m ->
  Vector.deref σ sv = Value scalar -> (forall i, sv <> Vector.Elem this i) ->
  Matrix.deref μ sm = Value scalar -> (forall i j, sm <> Matrix.Elem that i j) ->
  Vector.op_div_scalar N a scalar
  = Value (tabulate N (fun i => Tdivides (entry a i) scalar))
  /\ Vector.op_div N a b
     = Value (tabulate N (fun i => Tdivides (entry a i) (entry b i)))
  /\ Matrix.op_div_scalar Rows Cols m scalar
     = Value (tabulate2 Rows Cols (fun i j => Tdivides (entry2 m i j) scalar))
  /\ Vector.op_div_assign_scalar N this sv σ
     = Value (this, <[this := tabulate N (fun i => Tdivides (entry a i) scalar)]> σ)
  /\ Vector.op_div_assign N this other σ
     = Value (this,
              <[this := tabulate N (fun i => Tdivides (entry a i) (entry b i))]> σ)
  /\ Matrix.op_div_assign_scalar Rows Cols that sm μ
     = Value (that,
              <[that := tabulate2 Rows Cols
                          (fun i j => Tdivides (entry2 m i j) scalar)]> μ).
Proof.
  intros Ha Hb Hm Hthis Hother Hthat Hsv Hfarv Hsm Hfarm.
  destruct (apply_scalar_self_refines σ N this a sv scalar Tdivides
              Hthis Ha Hsv Hfarv) as (r1 & Hr1 & Hs1).
  destruct (apply_self_refines σ N this other a b Tdivides Hthis Hother Ha Hb)
    as (r2 & Hr2 & Hs2).
  destruct (matrix_apply_scalar_self_refines μ Rows Cols that m sm scalar Tdivides
              Hthat Hm Hsm Hfarm) as (r3 & Hr3 & Hs3).
  unfold Vector.op_div_assign_scalar, Vector.op_div_assign,
    Matrix.op_div_assign_scalar. rewrite Hs1, Hs2, Hs3. clear Hs1 Hs2 Hs3.
  unfold Vector.op_div_scalar, Vector.op_div, Matrix.op_div_scalar.
  rewrite Hr1, Hr2, Hr3.
  assert (r1 = tabulate N (fun i => Tdivides (entry a i) scalar)) as ->.
  { clear - Ha Hr1. as_tabulate a Ha. rewrite apply_scalar_tabulate in Hr1.
    congruence. }
  assert (r2 = tabulate N (fun i => Tdivides (entry a i) (entry b i))) as ->.
  { clear - Ha Hb Hr2. as_tabulate a Ha. as_tabulate b Hb.
    rewrite apply_tabulate in Hr2. congruence. }
  assert (r3 = tabulate2 Rows Cols (fun i j => Tdivides (entry2 m i j) scalar))
    as ->.
  { clear - Hm Hr3. as_tabulate2 m Hm. rewrite matrix_apply_scalar_tabulate2 in Hr3.
    congruence. }
  repeat split.
Qed.

End DivisionForms.

(** [division_is_unchecked] with the divisor zero, its hypotheses checked by
    computation. *)
Lemma division_is_unchecked_witness :
  Vector.op_div_scalar 3 ([1; -1; 0]%float) 0%float
  = Value (tabulate 3 (fun i => Tdivides (entry ([1; -1; 0]%float) i) 0%float))
  /\ Vector.op_div 3 ([1; -1; 0]%float) ([0; 2; 0]%float)
     = Value (tabulate 3 (fun i => Tdivides (entry ([1; -1; 0]%float) i)
                                            (entry ([0; 2; 0]%float) i)))
  /\ Matrix.op_div_scalar 1 2 ([[1; 0]]%float) 0%float
     = Value (tabulate2 1 2 (fun i j => Tdivides (entry2 ([[1; 0]]%float) i j) 0%float))
  /\ Vector.op_div_assign_scalar 3 0 (Vector.Temp 0%float)
       ({[ 0 := [1; -1; 0]%float; 1 := [0; 2; 0]%float ]} : gmap nat (list float))
     = Value (0, <[0 := tabulate 3 (fun i =>
                          Tdivides (entry ([1; -1; 0]%float) i) 0%float)]>
                   {[ 0 := [1; -1; 0]%float; 1 := [0; 2; 0]%float ]})
  /\ Vector.op_div_assign 3 0 1
       ({[ 0 := [1; -1; 0]%float; 1 := [0; 2; 0]%float ]} : gmap nat (list float))
     = Value (0, <[0 := tabulate 3 (fun i =>
                          Tdivides (entry ([1; -1; 0]%float) i)
                                   (entry ([0; 2; 0]%float) i))]>
                   {[ 0 := [1; -1; 0]%float; 1 := [0; 2; 0]%float ]})
  /\ Matrix.op_div_assign_scalar 1 2 0 (Matrix.Temp 0%float)
       ({[ 0 := [[1; 0]]%float ]} : gmap nat (list (list float)))
     = Value (0, <[0 := tabulate2 1 2 (fun i j =>
                          Tdivides (entry2 ([[1; 0]]%float) i j) 0%float)]>
                   {[ 0 := [[1; 0]]%float ]}).
Proof.
  apply (division_is_unchecked 3 1 2 ([1; -1; 0]%float) ([0; 2; 0]%float)
           ([[1; 0]]%float) 0%float
           ({[ 0 := [1; -1; 0]%float; 1 := [0; 2; 0]%float ]} : gmap nat (list float))
           ({[ 0 := [[1; 0]]%float ]} : gmap nat (list (list float)))
           0 1 0 (Vector.Temp 0%float) (Matrix.Temp 0%float));
    try reflexivity; try (split; [reflexivity|repeat constructor]);
    intros; discriminate.
Defined.

(** C6 as stated fails: the fallback of [normalized] is not the only
    defensive branch.  The list constructor bounds its copy by
    [std::min(N, values.size())]: [Vector<double, 2>{1, 2, 3}] copies two
    values and is [{1, 2}], where copying all three would write [data[2]],
    out of range. *)
Lemma constructor_bounds_its_copy :
  Vector.init 2 ([1; 2; 3]%float) = Value ([1; 2]%float)
  /\ Vector.init 2 ([1; 2; 3]%float)
     = Vector.copy_n ([1; 2; 3]%float) (Nat.min 2 3) (Vector.zeros 2)
  /\ Vector.copy_n ([1; 2; 3]%float) 3 (Vector.zeros 2) = Undefined.
Proof. repeat split; reflexivity. Qed.


(** C10, on the code: [v /= v[0]] on [v = {2, 4}].  The scalar refers to
    [v[0]], which the first step overwrites with 1, so the second step divides
    by 1: [v] ends as [{1, 4}], while [v / v[0]] is [{1, 2}]. *)
Theorem compound_scalar_aliasing :
  Vector.op_div_assign_scalar 2 0 (Vector.Elem 0 0)
    ({[ 0 := [2; 4]%float ]} : gmap nat (list float))
  = Value (0, {[ 0 := [1; 4]%float ]})
  /\ Vector.deref ({[ 0 := [2; 4]%float ]} : gmap nat (list float)) (Vector.Elem 0 0)
     = Value 2%float
  /\ Vector.op_div_scalar 2 ([2; 4]%float) 2%float = Value ([1; 2]%float).
Proof. repeat split; vm_compute; reflexivity. Qed.

(** The same on a matrix: [m *= m[0][0]] on [m = {{2, 3}, {4, 5}}]. *)
Example matrix_compound_scalar_aliasing :
  Matrix.op_mul_assign_scalar 2 2 0 (Matrix.Elem 0 0 0)
    ({[ 0 := [[2; 3]; [4; 5]]%float ]} : gmap nat (list (list float)))
  = Value (0, {[ 0 := [[4; 12]; [16; 20]]%float ]})
  /\ Matrix.op_mul_scalar 2 2 ([[2; 3]; [4; 5]]%float) 2%float
     = Value ([[4; 6]; [8; 10]]%float).
Proof. split; vm_compute; reflexivity. Qed.

(** ** Compound assignment without the aliased scalar *)

(** On vectors, [x op= y] leaves in [x] what [x op y] returns and returns
    [x], for every [op]: elementwise whatever [y] is ([x] itself included),
    and with a scalar that is not an element of [x]. *)
Theorem vector_compound_refines {T : Type} `{Scalar T} (σ : gmap nat (list T))
    (N this other : nat) (a b : list T) (scalar : Vector.sref) (x : T)
    (op : T -> T -> T) :
  σ !! this = Some a -> σ !! other = Some b ->
  is_vector N a -> is_vector N b ->
  Vector.deref σ scalar = Value x ->
  (forall i, scalar <> Vector.Elem this i) ->
  (exists r, Vector.apply N a b op = Value r
             /\ Vector.apply_self N this other op σ = Value (this, <[this := r]> σ))
  /\ (exists r, Vector.apply_scalar N a x op = Value r
                /\ Vector.apply_scalar_self N this scalar op σ
                   = Value (this, <[this := r]> σ)).
Proof.
  intros Hthis Hother Ha Hb Hx Hfar. split.
  - exact (apply_self_refines σ N this other a b op Hthis Hother Ha Hb).
  - exact (apply_scalar_self_refines σ N this a scalar x op Hthis Ha Hx Hfar).
Qed.

(** [vector_compound_refines] at a concrete input, its hypotheses checked by computation. *)
Lemma vector_compound_refines_witness :
  (exists r, Vector.apply 2 ([2; 4]%float) ([2; 4]%float) Tdivides = Value r
             /\ Vector.apply_self 2 0 0 Tdivides
                  ({[ 0 := [2; 4]%float; 1 := [8; 16]%float ]} : gmap nat (list float))
                = Value (0, <[0 := r]> {[ 0 := [2; 4]%float; 1 := [8; 16]%float ]}))
  /\ (exists r, Vector.apply_scalar 2 ([2; 4]%float) 8%float Tdivides = Value r
                /\ Vector.apply_scalar_self 2 0 (Vector.Elem 1 0) Tdivides
                     ({[ 0 := [2; 4]%float; 1 := [8; 16]%float ]}
                        : gmap nat (list float))
                   = Value (0, <[0 := r]> {[ 0 := [2; 4]%float; 1 := [8; 16]%float ]})).
Proof.
  apply (vector_compound_refines
           ({[ 0 := [2; 4]%float; 1 := [8; 16]%float ]} : gmap nat (list float))
           2 0 0 ([2; 4]%float) ([2; 4]%float) (Vector.Elem 1 0) 8%float);
    try reflexivity; intros i; discriminate.
Defined.

(** On matrices likewise, for [apply_self] and [apply_scalar_self]: [x op= y]
    leaves in [x] what [x op y] returns and returns [x], elementwise whatever
    [y] is and with a scalar that is not a cell of [x]. *)
Theorem matrix_compound_refines {T : Type} `{Scalar T} (σ : gmap nat (list (list T)))
    (Rows Cols this other : nat) (a b : list (list T)) (scalar : Matrix.sref)
    (x : T) (op : T -> T -> T) :
  σ !! this = Some a -> σ !! other = Some b ->
  is_matrix Rows Cols a -> is_matrix Rows Cols b ->
  Matrix.deref σ scalar = Value x ->
  (forall i j, scalar <> Matrix.Elem this i j) ->
  (exists r, Matrix.apply Rows Cols a b op = Value r
             /\ Matrix.apply_self Rows Cols this other op σ
                = Value (this, <[this := r]> σ))
  /\ (exists r, Matrix.apply_scalar Rows Cols a x op = Value r
                /\ Matrix.apply_scalar_self Rows Cols this scalar op σ
                   = Value (this, <[this := r]> σ)).
Proof.
  intros Hthis Hother Ha Hb Hx Hfar. split.
  - exact (matrix_apply_self_refines σ Rows Cols this other a b op Hthis Hother Ha Hb).
  - exact (matrix_apply_scalar_self_refines σ Rows Cols this a scalar x op
             Hthis Ha Hx Hfar).
Qed.

(** [matrix_compound_refines] at a concrete input, its hypotheses checked by computation. *)
Lemma matrix_compound_refines_witness :
  (exists r, Matrix.apply 2 2 ([[2; 4]; [6; 8]]%float) ([[1; 1]; [2; 2]]%float) Tminus
             = Value r
             /\ Matrix.apply_self 2 2 0 1 Tminus
                  ({[ 0 := [[2; 4]; [6; 8]]%float; 1 := [[1; 1]; [2; 2]]%float ]}
                     : gmap nat (list (list float)))
                = Value (0, <[0 := r]> {[ 0 := [[2; 4]; [6; 8]]%float;
                                          1 := [[1; 1]; [2; 2]]%float ]}))
  /\ (exists r, Matrix.apply_scalar 2 2 ([[2; 4]; [6; 8]]%float) 1%float Tminus
                = Value r
                /\ Matrix.apply_scalar_self 2 2 0 (Matrix.Elem 1 0 0) Tminus
                     ({[ 0 := [[2; 4]; [6; 8]]%float; 1 := [[1; 1]; [2; 2]]%float ]}
                        : gmap nat (list (list float)))
                   = Value (0, <[0 := r]> {[ 0 := [[2; 4]; [6; 8]]%float;
                                             1 := [[1; 1]; [2; 2]]%float ]})).
Proof.
  apply (matrix_compound_refines
           ({[ 0 := [[2; 4]; [6; 8]]%float; 1 := [[1; 1]; [2; 2]]%float ]}
              : gmap nat (list (list float)))
           2 2 0 1 ([[2; 4]; [6; 8]]%float) ([[1; 1]; [2; 2]]%float)
           (Matrix.Elem 1 0 0) 1%float);
    try reflexivity; try (split; [reflexivity|repeat constructor]);
    intros i j; discriminate.
Defined.

(** ** [transform] on a matrix wider than tall *)

(** With [Cols > Rows] the static check of [transform] passes and row 0
    already reads [vec[Rows]], past the end of the vector. *)
Theorem transform_wide_undefined {T : Type} `{Scalar T} (Rows Cols : nat)
    (m : list (list T)) (vec : list T) :
  0 < Rows -> Rows < Cols -> is_matrix Rows Cols m -> is_vector Rows vec ->
  Matrix.transform Rows Cols Rows m vec = Undefined.
Proof.
  intros HR HC Hm Hv. as_tabulate2 m Hm. as_tabulate vec Hv.
  unfold Matrix.transform. destruct (decide (Rows = Rows)) as [_|]; [|congruence].
  rewrite default_tabulate.
  set (P := fun (_ : nat) (r : list T) => exists z, r = tabulate Rows z).
  apply (for_loop_undefined P _ 0); [lia|eexists; reflexivity|intros; lia|].
  intros t [z ->]. rewrite set_at_tabulate by lia. cbn [mbind outcome_bind].
  apply (for_loop_undefined P _ Rows); [lia|eexists; reflexivity| |].
  - intros j t Hj [z' ->].
    rewrite at_tabulate, at2_tabulate2, at_tabulate by lia.
    cbn [mbind outcome_bind]. rewrite set_at_tabulate by lia.
    eexists. split; [reflexivity|]. eexists. reflexivity.
  - intros t [z' ->]. rewrite (at_tabulate Rows z' 0), at2_tabulate2 by lia.
    cbn [mbind outcome_bind]. rewrite at_tabulate_ge by lia. reflexivity.
Qed.

(** [transform_wide_undefined] at a concrete input, its hypotheses checked by computation. *)
Lemma transform_wide_undefined_witness :
  Matrix.transform 2 3 2 ([[1; 2; 3]; [4; 5; 6]]%float) ([7; 8]%float) = Undefined.
Proof.
  apply transform_wide_undefined; [lia|lia| |reflexivity].
  split; [reflexivity|repeat constructor].
Defined.

(** * Further properties of the members *)

(** ** Elementwise operators *)

(** [apply], behind [operator+ - * /] on two vectors, returns the vector of
    length [N] whose component [i] is [op(a[i], b[i])]; [apply_scalar],
    behind the operators with a scalar, the one whose component [i] is
    [op(a[i], scalar)]. *)
Theorem vector_elementwise {T : Type} `{Scalar T} (N : nat) (a b : list T)
    (scalar : T) (op : T -> T -> T) :
  is_vector N a -> is_vector N b ->
  (exists r, Vector.apply N a b op = Value r /\ is_vector N r
     /\ forall i, i < N -> Vector.index r i = Value (op (entry a i) (entry b i)))
  /\ (exists r, Vector.apply_scalar N a scalar op = Value r /\ is_vector N r
        /\ forall i, i < N -> Vector.index r i = Value (op (entry a i) scalar)).
Proof.
  intros Ha Hb. as_tabulate a Ha. as_tabulate b Hb.
  rewrite apply_tabulate, apply_scalar_tabulate. split.
  - eexists. split; [reflexivity|]. split; [apply is_vector_of_tabulate|].
    intros i Hi. unfold Vector.index. rewrite at_tabulate by exact Hi. reflexivity.
  - eexists. split; [reflexivity|]. split; [apply is_vector_of_tabulate|].
    intros i Hi. unfold Vector.index. rewrite at_tabulate by exact Hi. reflexivity.
Qed.

(** [vector_elementwise] at a concrete input, its hypotheses checked by computation. *)
Lemma vector_elementwise_witness :
  (exists r, Vector.apply 3 ([1; 2; 3]%float) ([4; 5; 6]%float) Tmultiplies = Value r
     /\ is_vector 3 r
     /\ forall i, i < 3 ->
          Vector.index r i
          = Value (Tmultiplies (entry ([1; 2; 3]%float) i) (entry ([4; 5; 6]%float) i)))
  /\ (exists r, Vector.apply_scalar 3 ([1; 2; 3]%float) 2%float Tmultiplies = Value r
        /\ is_vector 3 r
        /\ forall i, i < 3 ->
             Vector.index r i
             = Value (Tmultiplies (entry ([1; 2; 3]%float) i) 2%float)).
Proof.
  apply (vector_elementwise 3 ([1; 2; 3]%float) ([4; 5; 6]%float)); reflexivity.
Defined.

(** On matrices: [apply] and [apply_scalar] return the [Rows] x [Cols] matrix
    whose cell [(i, j)] is [op(a[i][j], b[i][j])], respectively
    [op(a[i][j], scalar)]. *)
Theorem matrix_elementwise {T : Type} `{Scalar T} (Rows Cols : nat)
    (a b : list (list T)) (scalar : T) (op : T -> T -> T) :
  is_matrix Rows Cols a -> is_matrix Rows Cols b ->
  (exists r, Matrix.apply Rows Cols a b op = Value r /\ is_matrix Rows Cols r
     /\ forall i j, i < Rows -> j < Cols ->
          at2 r i j = Value (op (entry2 a i j) (entry2 b i j)))
  /\ (exists r, Matrix.apply_scalar Rows Cols a scalar op = Value r
        /\ is_matrix Rows Cols r
        /\ forall i j, i < Rows -> j < Cols ->
             at2 r i j = Value (op (entry2 a i j) scalar)).
Proof.
  intros Ha Hb. as_tabulate2 a Ha. as_tabulate2 b Hb.
  rewrite matrix_apply_tabulate2, matrix_apply_scalar_tabulate2. split.
  - eexists. split; [reflexivity|]. split; [apply is_matrix_of_tabulate2|].
    intros i j Hi Hj. rewrite at2_tabulate2 by assumption. reflexivity.
  - eexists. split; [reflexivity|]. split; [apply is_matrix_of_tabulate2|].
    intros i j Hi Hj. rewrite at2_tabulate2 by assumption. reflexivity.
Qed.

(** [matrix_elementwise] at a concrete input, its hypotheses checked by computation. *)
Lemma matrix_elementwise_witness :
  (exists r, Matrix.apply 2 3 ([[1; 2; 3]; [4; 5; 6]]%float)
               ([[6; 5; 4]; [3; 2; 1]]%float) Tminus = Value r
     /\ is_matrix 2 3 r
     /\ forall i j, i < 2 -> j < 3 ->
          at2 r i j = Value (Tminus (entry2 ([[1; 2; 3]; [4; 5; 6]]%float) i j)
                                    (entry2 ([[6; 5; 4]; [3; 2; 1]]%float) i j)))
  /\ (exists r, Matrix.apply_scalar 2 3 ([[1; 2; 3]; [4; 5; 6]]%float) 2%float Tminus
                = Value r
        /\ is_matrix 2 3 r
        /\ forall i j, i < 2 -> j < 3 ->
             at2 r i j
             = Value (Tminus (entry2 ([[1; 2; 3]; [4; 5; 6]]%float) i j) 2%float)).
Proof.
  apply (matrix_elementwise 2 3 ([[1; 2; 3]; [4; 5; 6]]%float)
           ([[6; 5; 4]; [3; 2; 1]]%float));
    (split; [reflexivity|repeat constructor]).
Defined.

(** When [op] is commutative on [T], as [+] and [*] are on [double] and on
    the unsigned integers, [apply] gives the same vector with its operands
    exchanged: [a + b] and [b + a] are the same vector, component for
    component. *)
Theorem apply_commutes {T : Type} `{Scalar T} (N : nat) (a b : list T)
    (op : T -> T -> T) :
  (forall x y, op x y = op y x) ->
  is_vector N a -> is_vector N b ->
  Vector.apply N a b op = Vector.apply N b a op.
Proof.
  intros Hop Ha Hb. as_tabulate a Ha. as_tabulate b Hb.
  rewrite !apply_tabulate. f_equal. apply tabulate_ext. intros i _. apply Hop.
Qed.

(** [apply_commutes] at [double] addition. *)
Lemma apply_commutes_witness :
  Vector.op_add 2 ([0.5; infinity]%float) ([0x1p53; neg_infinity]%float)
  = Vector.op_add 2 ([0x1p53; neg_infinity]%float) ([0.5; infinity]%float).
Proof.
  apply (apply_commutes 2 ([0.5; infinity]%float) ([0x1p53; neg_infinity]%float)
           PrimFloat.add double_add_comm); reflexivity.
Defined.

(** ** Dot product *)

Lemma sigma_ext {T : Type} `{Scalar T} (n : nat) (f g : nat -> T) :
  (forall k, k < n -> f k = g k) -> sigma n f = sigma n g.
Proof.
  induction n as [|n IH]; intros Hfg; [reflexivity|].
  rewrite !sigma_S, IH, Hfg by (intros; auto with lia). reflexivity.
Qed.

(** [dot] returns the sum of the products [a[i] * b[i]], accumulated from 0
    in index order; it is 0 for [N = 0]; and it does not depend on the order
    of its operands when [*] is commutative on [T]. *)
Theorem dot_is_sum {T : Type} `{Scalar T} (N : nat) (a b : list T) :
  is_vector N a -> is_vector N b ->
  Vector.dot N a b
  = Value (sigma N (fun i => Tmultiplies (entry a i) (entry b i)))
  /\ (N = 0 -> Vector.dot N a b = Value (lit 0))
  /\ ((forall x y : T, Tmultiplies x y = Tmultiplies y x) ->
      Vector.dot N a b = Vector.dot N b a).
Proof.
  intros Ha Hb. as_tabulate a Ha. as_tabulate b Hb.
  rewrite !dot_tabulate. split; [reflexivity|]. split.
  - intros ->. reflexivity.
  - intros Hm. f_equal. apply sigma_ext. intros k _. apply Hm.
Qed.

(** [dot_is_sum] at two [double] vectors. *)
Lemma dot_is_sum_witness :
  Vector.dot 3 ([1; 2; 3]%float) ([4; 5; 6]%float)
  = Value (sigma 3 (fun i => Tmultiplies (entry ([1; 2; 3]%float) i)
                                         (entry ([4; 5; 6]%float) i)))
  /\ (3 = 0 -> Vector.dot 3 ([1; 2; 3]%float) ([4; 5; 6]%float) = Value (lit 0))
  /\ Vector.dot 3 ([1; 2; 3]%float) ([4; 5; 6]%float)
     = Vector.dot 3 ([4; 5; 6]%float) ([1; 2; 3]%float).
Proof.
  destruct (dot_is_sum 3 ([1; 2; 3]%float) ([4; 5; 6]%float))
    as (Hs & H0 & Hc); [reflexivity|reflexivity|].
  split; [exact Hs|]. split; [exact H0|]. exact (Hc double_mul_comm).
Defined.

(** ** Transposing twice *)

(** On a square matrix [transpose()] is its own inverse: transposing twice
    gives back the matrix, cell for cell. *)
Theorem transpose_involutive {T : Type} `{Scalar T} (n : nat) (m : list (list T)) :
  is_matrix n n m ->
  (t ← Matrix.transpose n n m; Matrix.transpose n n t) = Value m.
Proof.
  intros Hm. as_tabulate2 m Hm. rewrite transpose_tabulate2.
  cbn [mbind outcome_bind]. rewrite transpose_tabulate2. reflexivity.
Qed.

(** [transpose_involutive] at a 3 x 3 matrix. *)
Lemma transpose_involutive_witness :
  (t ← Matrix.transpose 3 3 ([[1; 2; 3]; [4; 5; 6]; [7; 8; 9]]%float);
   Matrix.transpose 3 3 t)
  = Value ([[1; 2; 3]; [4; 5; 6]; [7; 8; 9]]%float).
Proof.
  apply transpose_involutive. split; [reflexivity|repeat constructor].
Defined.

(** ** Identities over exact scalar types *)

Lemma matrix_op_eq_fmap {T : Type} `{Scalar T} {A : Type} (F G : A -> list T)
    (l : list A) :
  (forall x, x ∈ l -> Vector.op_eq (F x) (G x) = true) ->
  Matrix.op_eq (F <$> l) (G <$> l) = true.
Proof.
  induction l as [|a l IH]; intros Hl; [reflexivity|]. simpl.
  rewrite Hl by constructor. simpl. apply IH. intros x Hx. apply Hl.
  constructor. exact Hx.
Qed.

Lemma matrix_op_eq_tabulate2 {T : Type} `{Scalar T} (R C : nat)
    (f g : nat -> nat -> T) :
  (forall i j, i < R -> j < C -> Teq (f i j) (g i j) = true) ->
  Matrix.op_eq (tabulate2 R C f) (tabulate2 R C g) = true.
Proof.
  intros Hfg. apply matrix_op_eq_fmap. intros i Hi. apply elem_of_seq in Hi.
  apply op_eq_tabulate. intros j Hj. apply Hfg; [lia|exact Hj].
Qed.

Section ExactAlgebra.
Context {T : Type} `{ExactScalar T}.

Add Ring T_exact_ring : exact_ring.

Lemma neg_neg (x : T) : Tmultiplies (Tmultiplies x (lit (-1))) (lit (-1)) = x.
Proof. rewrite exact_neg_one. ring. Qed.

Lemma add_neg (x : T) : Tplus x (Tmultiplies x (lit (-1))) = lit 0.
Proof. rewrite exact_neg_one. ring. Qed.

(** [-(-a) == a] and [a + (-a) == 0] over an exact scalar type. *)
Theorem negation_exact (N : nat) (a : list T) :
  is_vector N a ->
  (exists r, (x ← Vector.op_neg N a; Vector.op_neg N x) = Value r
             /\ Vector.op_eq r a = true)
  /\ (exists r, (x ← Vector.op_neg N a; Vector.op_add N a x) = Value r
                /\ Vector.op_eq r (Vector.default N) = true).
Proof.
  intros Ha. as_tabulate a Ha.
  unfold Vector.op_neg, Vector.op_mul_scalar, Vector.op_add.
  rewrite apply_scalar_tabulate. cbn [mbind outcome_bind].
  rewrite apply_scalar_tabulate, apply_tabulate, default_tabulate. split.
  - eexists. split; [reflexivity|]. apply op_eq_tabulate. intros i _.
    rewrite neg_neg. apply Teq_refl.
  - eexists. split; [reflexivity|]. apply op_eq_tabulate. intros i _.
    rewrite add_neg. apply Teq_refl.
Qed.

Lemma cross_dot_left (a0 a1 a2 b0 b1 b2 : T) :
  Tplus (Tplus (Tplus (lit 0)
    (Tmultiplies (Tminus (Tmultiplies a1 b2) (Tmultiplies a2 b1)) a0))
    (Tmultiplies (Tminus (Tmultiplies a2 b0) (Tmultiplies a0 b2)) a1))
    (Tmultiplies (Tminus (Tmultiplies a0 b1) (Tmultiplies a1 b0)) a2)
  = lit 0.
Proof. ring. Qed.

Lemma cross_dot_right (a0 a1 a2 b0 b1 b2 : T) :
  Tplus (Tplus (Tplus (lit 0)
    (Tmultiplies (Tminus (Tmultiplies a1 b2) (Tmultiplies a2 b1)) b0))
    (Tmultiplies (Tminus (Tmultiplies a2 b0) (Tmultiplies a0 b2)) b1))
    (Tmultiplies (Tminus (Tmultiplies a0 b1) (Tmultiplies a1 b0)) b2)
  = lit 0.
Proof. ring. Qed.

Lemma cross_self (x y : T) : Tminus (Tmultiplies x y) (Tmultiplies y x) = lit 0.
Proof. ring. Qed.

(** Over an exact scalar type the cross product of two 3-vectors is
    orthogonal to both ([dot] with either is 0), and [cross(a, a)] is the
    zero vector. *)
Theorem cross_orthogonal_exact (a b : list T) :
  is_vector 3 a -> is_vector 3 b ->
  (exists c da db,
     Vector.cross 3 a b = Value c
     /\ Vector.dot 3 c a = Value da /\ Teq da (lit 0) = true
     /\ Vector.dot 3 c b = Value db /\ Teq db (lit 0) = true)
  /\ (exists z, Vector.cross 3 a a = Value z
                /\ Vector.op_eq z (Vector.default 3) = true).
Proof.
  intros Ha Hb. as_tabulate a Ha. as_tabulate b Hb.
  unfold Vector.cross. destruct (decide (3 = 3)) as [_|]; [|congruence].
  rewrite !at_tabulate by lia. cbn [mbind outcome_bind].
  rewrite !init_tabulate. split.
  - do 3 eexists. split; [reflexivity|]. rewrite !dot_tabulate.
    split; [reflexivity|]. split; [|split; [reflexivity|]].
    + apply exact_eq. unfold sigma. cbn. repeat case_decide; try lia.
      apply cross_dot_left.
    + apply exact_eq. unfold sigma. cbn. repeat case_decide; try lia.
      apply cross_dot_right.
  - eexists. split; [reflexivity|]. rewrite default_tabulate.
    apply op_eq_tabulate. intros i Hi. apply exact_eq.
    destruct i as [|[|[|i]]]; [| | |lia]; cbn; repeat case_decide; try lia;
      apply cross_self.
Qed.

(** Over an exact scalar type, for matrices of one shape:
    [(a + b) - b == a] and [a + b == b + a]. *)
Theorem matrix_add_sub_roundtrip_exact (Rows Cols : nat) (a b : list (list T)) :
  is_matrix Rows Cols a -> is_matrix Rows Cols b ->
  (exists r, (s ← Matrix.op_add Rows Cols a b; Matrix.op_sub Rows Cols s b)
             = Value r
             /\ Matrix.op_eq r a = true)
  /\ (exists r1 r2, Matrix.op_add Rows Cols a b = Value r1
                    /\ Matrix.op_add Rows Cols b a = Value r2
                    /\ Matrix.op_eq r1 r2 = true).
Proof.
  intros Ha Hb. as_tabulate2 a Ha. as_tabulate2 b Hb.
  unfold Matrix.op_add, Matrix.op_sub. rewrite !matrix_apply_tabulate2.
  cbn [mbind outcome_bind]. rewrite matrix_apply_tabulate2. split.
  - eexists. split; [reflexivity|]. apply matrix_op_eq_tabulate2. intros i j _ _.
    rewrite add_sub_cancel. apply Teq_refl.
  - do 2 eexists. split; [reflexivity|split; [reflexivity|]].
    apply matrix_op_eq_tabulate2. intros i j _ _. rewrite add_comm. apply Teq_refl.
Qed.

(** The sum against a row of the identity picks one term. *)
Lemma sigma_delta_l (n i : nat) (f : nat -> T) :
  sigma n (fun k => Tmultiplies (if decide (i = k) then lit 1 else lit 0) (f k))
  = if decide (i < n) then f i else lit 0.
Proof.
  induction n as [|n IH]; [reflexivity|]. rewrite sigma_S, IH.
  repeat case_decide; subst; try lia; ring.
Qed.

(** Over an exact scalar type the identity matrix maps every vector to
    itself: [I.transform(v)] is [v]. *)
Theorem identity_transform_exact (n : nat) (v : list T) :
  is_vector n v ->
  Matrix.transform n n n (identity n) v = Value v.
Proof.
  intros Hv. as_tabulate v Hv. unfold identity.
  rewrite transform_tabulate by lia. f_equal.
  apply tabulate_ext. intros i Hi. rewrite sigma_delta_l.
  case_decide; [reflexivity|lia].
Qed.

End ExactAlgebra.

(** [negation_exact] at a [uint32_t] vector. *)
Lemma negation_exact_witness :
  (exists r, (x ← Vector.op_neg 2 ([lit 5; lit 0] : list uint32);
              Vector.op_neg 2 x) = Value r
             /\ Vector.op_eq r ([lit 5; lit 0] : list uint32) = true)
  /\ (exists r, (x ← Vector.op_neg 2 ([lit 5; lit 0] : list uint32);
                 Vector.op_add 2 [lit 5; lit 0] x) = Value r
                /\ Vector.op_eq r (Vector.default 2) = true).
Proof. apply (negation_exact 2 [lit 5; lit 0]). reflexivity. Defined.

(** [cross_orthogonal_exact] at two [uint32_t] vectors. *)
Lemma cross_orthogonal_exact_witness :
  (exists c da db,
     Vector.cross 3 ([lit 1; lit 2; lit 3] : list uint32) [lit 4; lit 5; lit 6]
     = Value c
     /\ Vector.dot 3 c [lit 1; lit 2; lit 3] = Value da /\ Teq da (lit 0) = true
     /\ Vector.dot 3 c [lit 4; lit 5; lit 6] = Value db /\ Teq db (lit 0) = true)
  /\ (exists z, Vector.cross 3 ([lit 1; lit 2; lit 3] : list uint32)
                  [lit 1; lit 2; lit 3] = Value z
                /\ Vector.op_eq z (Vector.default 3) = true).
Proof.
  apply (cross_orthogonal_exact [lit 1; lit 2; lit 3] [lit 4; lit 5; lit 6]);
    reflexivity.
Defined.

(** [matrix_add_sub_roundtrip_exact] at two 1 x 2 [uint32_t] matrices. *)
Lemma matrix_add_sub_roundtrip_exact_witness :
  (exists r, (s ← Matrix.op_add 1 2 ([[lit 1; lit 2]] : list (list uint32))
                    [[lit 4294967295; lit 7]];
              Matrix.op_sub 1 2 s [[lit 4294967295; lit 7]]) = Value r
             /\ Matrix.op_eq r ([[lit 1; lit 2]] : list (list uint32)) = true)
  /\ (exists r1 r2,
        Matrix.op_add 1 2 ([[lit 1; lit 2]] : list (list uint32))
          [[lit 4294967295; lit 7]] = Value r1
        /\ Matrix.op_add 1 2 [[lit 4294967295; lit 7]] [[lit 1; lit 2]] = Value r2
        /\ Matrix.op_eq r1 r2 = true).
Proof.
  apply (matrix_add_sub_roundtrip_exact 1 2 [[lit 1; lit 2]]
           [[lit 4294967295; lit 7]]);
    (split; [reflexivity|repeat constructor]).
Defined.

(** [identity_transform_exact] at a [uint32_t] vector. *)
Lemma identity_transform_exact_witness :
  is_vector 2 ([lit 7; lit 8] : list uint32)
  /\ Matrix.transform 2 2 2 (identity 2) ([lit 7; lit 8] : list uint32)
     = Value [lit 7; lit 8].
Proof.
  split; [reflexivity|].
  apply (identity_transform_exact 2 [lit 7; lit 8]). reflexivity.
Defined.

(** ** Clamping *)

Section ClampFacts.
Context {T : Type} `{Scalar T} `{!OrdScalar T}.

Lemma clamp_tabulate (N : nat) (f : nat -> T) (lo hi : T) :
  Tlt hi lo = false ->
  Vector.clamp N (tabulate N f) lo hi
  = Value (tabulate N (fun i =>
             if Tlt (f i) lo then lo else if Tlt hi (f i) then hi else f i)).
Proof.
  intros Hlh. unfold Vector.clamp. rewrite default_tabulate.
  apply (fill_loop (tabulate N)); [apply tabulate_ext|].
  intros i z' Hi _. rewrite at_tabulate by exact Hi. cbn [mbind outcome_bind].
  unfold Vector.std_clamp. rewrite Hlh. cbn [mbind outcome_bind].
  apply set_at_tabulate. exact Hi.
Qed.

(** With [lo] not above [hi], [clamp] returns a vector of the same length
    whose every component is neither below [lo] nor above [hi], and equal to
    the input's where that one already is; clamping the result again changes
    nothing.  With [hi < lo] the call to [std::clamp] is undefined.  ([<] is
    taken irreflexive, as it is on the arithmetic types.) *)
Theorem clamp_within_bounds (N : nat) (v : list T) (lo hi : T) :
  (forall x : T, Tlt x x = false) ->
  is_vector N v ->
  (Tlt hi lo = false ->
   exists r, Vector.clamp N v lo hi = Value r /\ is_vector N r
     /\ (forall i, i < N ->
           Tlt (entry r i) lo = false /\ Tlt hi (entry r i) = false
           /\ (Tlt (entry v i) lo = false -> Tlt hi (entry v i) = false ->
               entry r i = entry v i))
     /\ Vector.clamp N r lo hi = Value r)
  /\ (Tlt hi lo = true -> 0 < N -> Vector.clamp N v lo hi = Undefined).
Proof.
  intros Hirr Hv. as_tabulate v Hv. split.
  - intros Hlh. rewrite clamp_tabulate by exact Hlh. eexists.
    split; [reflexivity|]. split; [apply is_vector_of_tabulate|]. split.
    + intros i Hi. rewrite !entry_tabulate by exact Hi.
      destruct (Tlt (f i) lo) eqn:E1; [|destruct (Tlt hi (f i)) eqn:E2];
        rewrite ?Hirr, ?Hlh; repeat split; congruence.
    + rewrite clamp_tabulate by exact Hlh. f_equal. apply tabulate_ext.
      intros i _.
      destruct (Tlt (f i) lo) eqn:E1; [|destruct (Tlt hi (f i)) eqn:E2];
        rewrite ?Hirr, ?Hlh, ?E1, ?E2; reflexivity.
  - intros Hlh HN. unfold Vector.clamp. rewrite default_tabulate.
    apply (for_loop_undefined (fun _ _ => True) _ 0);
      [exact HN|exact I|intros; lia|].
    intros t _. rewrite at_tabulate by exact HN. cbn [mbind outcome_bind].
    unfold Vector.std_clamp. rewrite Hlh. reflexivity.
Qed.

End ClampFacts.

(** [clamp_within_bounds] at a [double] vector, with a NaN-free input. *)
Lemma clamp_within_bounds_witness :
  (exists r, Vector.clamp 3 ([-5; 0.5; 7]%float) 0%float 1%float = Value r
     /\ is_vector 3 r
     /\ (forall i, i < 3 ->
           Tlt (entry r i) 0%float = false /\ Tlt 1%float (entry r i) = false
           /\ (Tlt (entry ([-5; 0.5; 7]%float) i) 0%float = false ->
               Tlt 1%float (entry ([-5; 0.5; 7]%float) i) = false ->
               entry r i = entry ([-5; 0.5; 7]%float) i))
     /\ Vector.clamp 3 r 0%float 1%float = Value r)
  /\ (0 < 3 -> Vector.clamp 3 ([-5; 0.5; 7]%float) 1%float 0%float = Undefined).
Proof.
  split.
  - apply (proj1 (@clamp_within_bounds float double_Scalar double_OrdScalar
                    3 ([-5; 0.5; 7]%float) 0%float 1%float
                    double_ltb_irrefl eq_refl)). reflexivity.
  - apply (proj2 (@clamp_within_bounds float double_Scalar double_OrdScalar
                    3 ([-5; 0.5; 7]%float) 1%float 0%float
                    double_ltb_irrefl eq_refl)). reflexivity.
Defined.

(** ** Reflection *)

Lemma reflect_tabulate {T : Type} `{Scalar T} (N : nat) (v n : nat -> T) :
  Vector.reflect N (tabulate N v) (tabulate N n)
  = Value (tabulate N (fun i =>
             Tminus (v i)
               (Tmultiplies (n i)
                  (Tmultiplies (lit 2)
                     (sigma N (fun k => Tmultiplies (v k) (n k))))))).
Proof.
  unfold Vector.reflect, Vector.op_mul_scalar, Vector.op_sub.
  rewrite dot_tabulate. cbn [mbind outcome_bind].
  rewrite apply_scalar_tabulate. cbn [mbind outcome_bind].
  apply apply_tabulate.
Qed.

(** [reflect] returns the vector whose component [i] is
    [v[i] - normal[i] * (2 * dot(v, normal))]; the normal is used as given,
    whatever its length. *)
Theorem reflect_formula {T : Type} `{Scalar T} (N : nat) (v normal : list T) :
  is_vector N v -> is_vector N normal ->
  exists d r, Vector.dot N v normal = Value d
    /\ Vector.reflect N v normal = Value r /\ is_vector N r
    /\ forall i, i < N ->
         Vector.index r i
         = Value (Tminus (entry v i)
                    (Tmultiplies (entry normal i) (Tmultiplies (lit 2) d))).
Proof.
  intros Hv Hn. as_tabulate v Hv. as_tabulate normal Hn.
  rewrite dot_tabulate, reflect_tabulate. do 2 eexists.
  split; [reflexivity|]. split; [reflexivity|].
  split; [apply is_vector_of_tabulate|].
  intros i Hi. unfold Vector.index. rewrite at_tabulate by exact Hi. reflexivity.
Qed.

(** [reflect_formula] at two [double] vectors. *)
Lemma reflect_formula_witness :
  exists d r, Vector.dot 2 ([1; -1]%float) ([0; 1]%float) = Value d
    /\ Vector.reflect 2 ([1; -1]%float) ([0; 1]%float) = Value r /\ is_vector 2 r
    /\ forall i, i < 2 ->
         Vector.index r i
         = Value (Tminus (entry ([1; -1]%float) i)
                    (Tmultiplies (entry ([0; 1]%float) i) (Tmultiplies (lit 2) d))).
Proof.
  apply (reflect_formula 2 ([1; -1]%float) ([0; 1]%float)); reflexivity.
Defined.

Section ReflectExact.
Context {T : Type} `{ExactScalar T}.

Add Ring T_reflect_ring : exact_ring.

Lemma sigma_reflect (N : nat) (v n : nat -> T) (c : T) :
  sigma N (fun i => Tmultiplies (Tminus (v i) (Tmultiplies (n i) c)) (n i))
  = Tminus (sigma N (fun i => Tmultiplies (v i) (n i)))
           (Tmultiplies c (sigma N (fun i => Tmultiplies (n i) (n i)))).
Proof.
  induction N as [|N IH]; [unfold sigma; simpl; ring|].
  rewrite !sigma_S, IH. ring.
Qed.

(** Over an exact scalar type, reflecting twice about a normal with
    [dot(normal, normal) == 1] gives back the vector. *)
Theorem reflect_involutive_exact (N : nat) (v normal : list T) :
  lit 2 = Tplus (lit 1) (lit 1) ->
  is_vector N v -> is_vector N normal ->
  Vector.dot N normal normal = Value (lit 1) ->
  exists r, (x ← Vector.reflect N v normal; Vector.reflect N x normal) = Value r
            /\ Vector.op_eq r v = true.
Proof.
  intros H2 Hv Hn. as_tabulate v Hv. as_tabulate normal Hn.
  rewrite dot_tabulate. intros [= Hunit].
  rewrite reflect_tabulate. cbn [mbind outcome_bind]. rewrite reflect_tabulate.
  eexists. split; [reflexivity|]. apply op_eq_tabulate. intros i _.
  apply exact_eq. rewrite sigma_reflect, Hunit, H2. ring.
Qed.

End ReflectExact.

(** [reflect_involutive_exact] at [uint32_t], about the second axis. *)
Lemma reflect_involutive_exact_witness :
  exists r, (x ← Vector.reflect 2 ([lit 3; lit 4] : list uint32) [lit 0; lit 1];
             Vector.reflect 2 x [lit 0; lit 1]) = Value r
            /\ Vector.op_eq r ([lit 3; lit 4] : list uint32) = true.
Proof.
  apply (reflect_involutive_exact 2 [lit 3; lit 4] [lit 0; lit 1]);
    reflexivity.
Defined.

(** ** Equality operators *)

Lemma op_eq_Forall2 {T : Type} `{Scalar T} (a b : list T) :
  Vector.op_eq a b = true <-> Forall2 (fun x y => Teq x y = true) a b.
Proof.
  revert b. induction a as [|x a IH]; intros [|y b]; simpl.
  - split; [constructor|reflexivity].
  - split; [discriminate|inversion 1].
  - split; [discriminate|inversion 1].
  - rewrite andb_true_iff, IH. split.
    + intros [Hx Hab]. constructor; assumption.
    + inversion 1; subst. split; assumption.
Qed.

Lemma op_eq_exact {T : Type} `{ExactScalar T} (a b : list T) :
  Vector.op_eq a b = true <-> a = b.
Proof.
  rewrite op_eq_Forall2. split.
  - induction 1 as [|x y a' b' Hxy _ IH]; [reflexivity|].
    apply exact_eq in Hxy. congruence.
  - intros ->. induction b as [|y b IH]; constructor; [|exact IH].
    apply exact_eq. reflexivity.
Qed.

(** [operator==] on vectors is true exactly when the operands have the same
    number of components and the corresponding ones are [==] in [T];
    [operator!=] is its negation; over an exact scalar type [==] holds
    exactly for equal vectors. *)
Theorem vector_op_eq_spec {T : Type} `{Scalar T} (a b : list T) :
  (Vector.op_eq a b = true <-> Forall2 (fun x y => Teq x y = true) a b)
  /\ Vector.op_ne a b = negb (Vector.op_eq a b)
  /\ (ExactScalar T -> (Vector.op_eq a b = true <-> a = b)).
Proof.
  split; [apply op_eq_Forall2|]. split; [reflexivity|].
  intros HE. apply op_eq_exact.
Qed.

(** [operator==] on matrices: the same, row by row. *)
Theorem matrix_op_eq_spec {T : Type} `{Scalar T} (a b : list (list T)) :
  (Matrix.op_eq a b = true
   <-> Forall2 (Forall2 (fun x y => Teq x y = true)) a b)
  /\ Matrix.op_ne a b = negb (Matrix.op_eq a b)
  /\ (ExactScalar T -> (Matrix.op_eq a b = true <-> a = b)).
Proof.
  split; [|split; [reflexivity|]].
  - revert b. induction a as [|x a IH]; intros [|y b]; simpl.
    + split; [constructor|reflexivity].
    + split; [discriminate|inversion 1].
    + split; [discriminate|inversion 1].
    + rewrite andb_true_iff, IH, op_eq_Forall2. split.
      * intros [Hx Hab]. constructor; assumption.
      * inversion 1; subst. split; assumption.
  - intros HE. revert b. induction a as [|x a IH]; intros [|y b]; simpl;
      try (split; [discriminate|inversion 1]); [split; reflexivity|].
    rewrite andb_true_iff, IH, op_eq_exact. split.
    + intros [-> ->]. reflexivity.
    + intros [= -> ->]. split; reflexivity.
Qed.

(** ** Indexing *)

(** Assigning through [operator[]] at an index in range changes that
    component and no other (a later read gives the assigned value), and keeps
    the length; at an index out of range both the read and the write are
    undefined. *)
Theorem index_assign_roundtrip {T : Type} `{Scalar T} (v : list T) (i : nat) (x : T) :
  (i < length v ->
   exists v', Vector.index_assign v i x = Value v' /\ length v' = length v
     /\ Vector.index v' i = Value x
     /\ forall j, j <> i -> Vector.index v' j = Vector.index v j)
  /\ (length v <= i ->
      Vector.index_assign v i x = Undefined /\ Vector.index v i = Undefined).
Proof.
  unfold Vector.index_assign, Vector.index, set_at, at_. split.
  - intros Hi. destruct (decide (i < length v)); [|lia]. eexists.
    split; [reflexivity|]. split; [apply length_insert|]. split.
    + rewrite list_lookup_insert_eq by exact Hi. reflexivity.
    + intros j Hj. rewrite list_lookup_insert_ne by congruence. reflexivity.
  - intros Hi. destruct (decide (i < length v)); [lia|].
    rewrite lookup_ge_None_2 by exact Hi. split; reflexivity.
Qed.

Lemma at2_tabulate2_out {A : Type} (R C : nat) (f : nat -> nat -> A) (i j : nat) :
  R <= i \/ C <= j -> at2 (tabulate2 R C f) i j = Undefined.
Proof.
  intros Hij. unfold at2, tabulate2. destruct (decide (i < R)) as [Hi|Hi].
  - rewrite at_tabulate by exact Hi. cbn [mbind outcome_bind].
    apply at_tabulate_ge. lia.
  - rewrite at_tabulate_ge by lia. reflexivity.
Qed.

(** The same for a cell [m[i][j]] of a matrix. *)
Theorem cell_assign_roundtrip {T : Type} `{Scalar T} (Rows Cols : nat)
    (m : list (list T)) (i j : nat) (x : T) :
  is_matrix Rows Cols m ->
  (i < Rows -> j < Cols ->
   exists m', set_at2 m i j x = Value m' /\ is_matrix Rows Cols m'
     /\ at2 m' i j = Value x
     /\ forall k l, k <> i \/ l <> j -> at2 m' k l = at2 m k l)
  /\ (Rows <= i \/ Cols <= j ->
      set_at2 m i j x = Undefined /\ at2 m i j = Undefined).
Proof.
  intros Hm. as_tabulate2 m Hm. split.
  - intros Hi Hj. rewrite set_at2_tabulate2 by assumption. eexists.
    split; [reflexivity|]. split; [apply is_matrix_of_tabulate2|]. split.
    + rewrite at2_tabulate2 by assumption. unfold upd2.
      case_decide; [reflexivity|tauto].
    + intros k l Hkl.
      destruct (decide (k < Rows /\ l < Cols)) as [[Hk Hl]|Hout].
      * rewrite !at2_tabulate2 by assumption. unfold upd2.
        case_decide; [lia|reflexivity].
      * rewrite !at2_tabulate2_out by lia. reflexivity.
  - intros Hout. split; [|apply at2_tabulate2_out; exact Hout].
    destruct (decide (i < Rows)) as [Hi|Hi].
    + apply set_at2_tabulate2_col_out; lia.
    + apply set_at2_tabulate2_row_out. lia.
Qed.

(** [cell_assign_roundtrip] at a 2 x 2 matrix. *)
Lemma cell_assign_roundtrip_witness :
  (1 < 2 -> 0 < 2 ->
   exists m', set_at2 ([[1; 2]; [3; 4]]%float) 1 0 9%float = Value m'
     /\ is_matrix 2 2 m'
     /\ at2 m' 1 0 = Value 9%float
     /\ forall k l, k <> 1 \/ l <> 0 -> at2 m' k l = at2 ([[1; 2]; [3; 4]]%float) k l)
  /\ (2 <= 1 \/ 2 <= 0 ->
      set_at2 ([[1; 2]; [3; 4]]%float) 1 0 9%float = Undefined
      /\ at2 ([[1; 2]; [3; 4]]%float) 1 0 = Undefined).
Proof.
  apply (cell_assign_roundtrip 2 2 ([[1; 2]; [3; 4]]%float) 1 0 9%float).
  split; [reflexivity|repeat constructor].
Defined.

(** ** More on loops *)

Lemma for_from_ext {St : Type} (body body' : nat -> St -> outcome St) (n : nat) :
  forall (from : nat) (s : St),
    (forall i t, from <= i < from + n -> body i t = body' i t) ->
    for_from from n body s = for_from from n body' s.
Proof.
  induction n as [|n IH]; intros from s Hb; [reflexivity|]. simpl.
  rewrite Hb by lia. destruct (body' from s) as [s'| |]; try reflexivity.
  cbn [mbind outcome_bind]. apply IH. intros i t Hi. apply Hb. lia.
Qed.

Lemma for_loop_ext {St : Type} (body body' : nat -> St -> outcome St) (n : nat)
    (s : St) :
  (forall i t, i < n -> body i t = body' i t) ->
  for_loop n body s = for_loop n body' s.
Proof. intros Hb. apply for_from_ext. intros i t Hi. apply Hb. lia. Qed.

(** A loop one of whose iterations never returns does not return. *)
Lemma for_from_not_value {St : Type} (body : nat -> St -> outcome St) (k n : nat) :
  forall (from : nat),
    from <= k < from + n ->
    (forall s t, body k s <> Value t) ->
    forall s t, for_from from n body s <> Value t.
Proof.
  induction n as [|n IH]; intros from Hk Hbad s t; [lia|]. simpl.
  destruct (decide (from = k)) as [->|Hne].
  - destruct (body k s) as [s'| |] eqn:E; try discriminate.
    exfalso. exact (Hbad s s' E).
  - destruct (body from s) as [s'| |]; try discriminate.
    cbn [mbind outcome_bind]. apply IH; [lia|exact Hbad].
Qed.

(** A loop whose body is never rejected is not rejected. *)
Lemma for_from_not_rejected {St : Type} (body : nat -> St -> outcome St) (n : nat) :
  (forall i s, body i s <> Rejected) ->
  forall from s, for_from from n body s <> Rejected.
Proof.
  intros Hb. induction n as [|n IH]; intros from s; [discriminate|]. simpl.
  destruct (body from s) as [s'| |] eqn:E; try discriminate.
  - cbn [mbind outcome_bind]. apply IH.
  - exfalso. exact (Hb from s E).
Qed.

Lemma outcome_undefined {A : Type} (m : outcome A) :
  (forall a, m <> Value a) -> m <> Rejected -> m = Undefined.
Proof. destruct m as [a| |]; intros Hv Hr; [destruct (Hv a eq_refl)|reflexivity|tauto]. Qed.

Lemma at_not_rejected {A : Type} (l : list A) (i : nat) : at_ l i <> Rejected.
Proof. unfold at_. destruct (l !! i); discriminate. Qed.

Lemma set_at2_not_rejected {A : Type} (m : list (list A)) (i j : nat) (x : A) :
  set_at2 m i j x <> Rejected.
Proof.
  unfold set_at2, set_at, at_. destruct (m !! i) as [row|]; [|discriminate].
  cbn [mbind outcome_bind]. destruct (decide (j < length row)); [|discriminate].
  cbn [mbind outcome_bind]. destruct (decide (i < length m)); discriminate.
Qed.

(** ** Construction of a matrix from nested lists *)

(** The constructor copies [values[i][j]] for [i < Rows], [j < Cols] when the
    list has at least [Rows] rows and each of the first [Rows] has at least
    [Cols] values (what is beyond is ignored).  With fewer rows, or with one
    of those rows shorter than [Cols], it reads past the end of a list:
    unlike [Vector]'s constructor it does not pad. *)
Theorem matrix_init_spec {T : Type} `{Scalar T} (Rows Cols : nat)
    (values : list (list T)) :
  (Rows <= length values ->
   (forall i row, i < Rows -> values !! i = Some row -> Cols <= length row) ->
   exists m, Matrix.init Rows Cols values = Value m /\ is_matrix Rows Cols m
     /\ forall i j, i < Rows -> j < Cols -> at2 m i j = at2 values i j)
  /\ (length values < Rows -> Matrix.init Rows Cols values = Undefined)
  /\ (forall i row, i < Rows -> values !! i = Some row -> length row < Cols ->
      Matrix.init Rows Cols values = Undefined).
Proof.
  assert (Hnr : Matrix.init Rows Cols values <> Rejected).
  { apply for_from_not_rejected. intros i s.
    destruct (at_ values i) as [row| |] eqn:E; try discriminate.
    - cbn [mbind outcome_bind]. apply for_from_not_rejected. intros j s'.
      destruct (at_ row j) as [x| |] eqn:E'; try discriminate.
      + apply set_at2_not_rejected.
      + exfalso. exact (at_not_rejected _ _ E').
    - exfalso. exact (at_not_rejected _ _ E). }
  split; [|split].
  - intros Hrows Hcols. unfold Matrix.init. rewrite default_tabulate2.
    rewrite (for_loop_ext _ (fun i data =>
               for_loop Cols (fun j data => set_at2 data i j (entry2 values i j)) data)).
    + rewrite (fill2_loop Rows Cols (fun i j data => set_at2 data i j (entry2 values i j))
                 (entry2 values)).
      * eexists. split; [reflexivity|]. split; [apply is_matrix_of_tabulate2|].
        intros i j Hi Hj. rewrite at2_tabulate2 by assumption.
        destruct (lookup_lt_is_Some_2 values i) as [row Hrow]; [lia|].
        pose proof (Hcols i row Hi Hrow) as Hlen.
        destruct (lookup_lt_is_Some_2 row j) as [x Hx]; [lia|].
        unfold at2, at_, entry2, entry. rewrite Hrow. cbn. rewrite Hx. reflexivity.
      * intros i j z' Hi Hj. apply set_at2_tabulate2; assumption.
    + intros i t Hi.
      destruct (lookup_lt_is_Some_2 values i) as [row Hrow]; [lia|].
      pose proof (Hcols i row Hi Hrow) as Hlen.
      assert (at_ values i = Value row) as ->
        by (unfold at_; rewrite Hrow; reflexivity).
      cbn [mbind outcome_bind]. apply for_loop_ext. intros j t' Hj.
      destruct (lookup_lt_is_Some_2 row j) as [x Hx]; [lia|].
      unfold at_, entry2, entry. rewrite Hrow. cbn. rewrite Hx. reflexivity.
  - intros Hshort. apply outcome_undefined; [|exact Hnr].
    apply (for_from_not_value _ (length values)); [lia|].
    intros s t. unfold at_. rewrite lookup_ge_None_2 by lia. discriminate.
  - intros i row Hi Hrow Hshort. apply outcome_undefined; [|exact Hnr].
    apply (for_from_not_value _ i); [lia|].
    intros s t. assert (at_ values i = Value row) as ->
      by (unfold at_; rewrite Hrow; reflexivity).
    cbn [mbind outcome_bind].
    apply (for_from_not_value _ (length row)); [lia|].
    intros s' t'. unfold at_. rewrite lookup_ge_None_2 by lia. discriminate.
Qed.

(** [matrix_init_spec] at nested lists with a spare row and a spare column,
    and at lists that are too short. *)
Lemma matrix_init_spec_witness :
  (exists m, Matrix.init 2 2 ([[1; 2; 3]; [4; 5; 6]; [7; 8; 9]]%float) = Value m
     /\ is_matrix 2 2 m
     /\ forall i j, i < 2 -> j < 2 ->
          at2 m i j = at2 ([[1; 2; 3]; [4; 5; 6]; [7; 8; 9]]%float) i j)
  /\ Matrix.init 2 2 ([[1; 2]]%float) = Undefined
  /\ Matrix.init 2 2 ([[1; 2]; [3]]%float) = Undefined.
Proof.
  split; [|split].
  - apply (proj1 (matrix_init_spec 2 2 ([[1; 2; 3]; [4; 5; 6]; [7; 8; 9]]%float)));
      [simpl; lia|].
    intros [|[|i]] row Hi Hrow; [| |lia]; simplify_eq/=; lia.
  - apply (proj1 (proj2 (matrix_init_spec 2 2 ([[1; 2]]%float)))). simpl. lia.
  - apply (proj2 (proj2 (matrix_init_spec 2 2 ([[1; 2]; [3]]%float)))
             1 ([3]%float)); [lia|reflexivity|simpl; lia].
Defined.

(** [index_assign_roundtrip] at index 1 of a vector of length 3, and at
    index 3. *)
Lemma index_assign_roundtrip_witness :
  (exists v', Vector.index_assign ([1; 2; 3]%float) 1 9%float = Value v'
     /\ length v' = 3
     /\ Vector.index v' 1 = Value 9%float
     /\ forall j, j <> 1 -> Vector.index v' j = Vector.index ([1; 2; 3]%float) j)
  /\ (Vector.index_assign ([1; 2; 3]%float) 3 9%float = Undefined
      /\ Vector.index ([1; 2; 3]%float) 3 = Undefined).
Proof.
  split.
  - apply (proj1 (index_assign_roundtrip ([1; 2; 3]%float) 1 9%float)). simpl. lia.
  - apply (proj2 (index_assign_roundtrip ([1; 2; 3]%float) 3 9%float)). simpl. lia.
Defined.

(** ** Distance and in-place normalisation *)

Section DistanceFacts.
Context {T : Type} `{DivScalar T}.

(** [distance(a, b)] is the square root of the sum of the squared
    componentwise differences, [magnitude(a - b)]. *)
Theorem distance_formula (N : nat) (a b : list T) :
  is_vector N a -> is_vector N b ->
  Vector.distance N a b
  = Value (Tsqrt (sigma N (fun i =>
             Tmultiplies (Tminus (entry a i) (entry b i))
                         (Tminus (entry a i) (entry b i))))).
Proof.
  intros Ha Hb. as_tabulate a Ha. as_tabulate b Hb.
  unfold Vector.distance, Vector.op_sub. rewrite apply_tabulate.
  cbn [mbind outcome_bind]. apply magnitude_tabulate.
Qed.

Lemma normalized_is_vector (N : nat) (a : list T) :
  is_vector N a ->
  exists mag r, Vector.magnitude N a = Value mag
    /\ Vector.normalized N a = Value r /\ is_vector N r
    /\ (Tgt mag (lit 0) = false -> r = a).
Proof.
  intros Ha. pose proof Ha as Ha'. as_tabulate a Ha.
  rewrite magnitude_tabulate. unfold Vector.normalized.
  rewrite magnitude_tabulate. cbn [mbind outcome_bind].
  destruct (Tgt _ (lit 0)) eqn:E.
  - unfold Vector.op_div_scalar. rewrite apply_scalar_tabulate.
    do 2 eexists. split; [reflexivity|]. split; [reflexivity|].
    split; [apply is_vector_of_tabulate|rewrite E; discriminate].
  - do 2 eexists. split; [reflexivity|]. split; [reflexivity|].
    split; [exact Ha'|reflexivity].
Qed.

(** [normalize()] on a well-formed vector always completes: it stores
    [normalized()] in the receiver, which keeps its length, and returns the
    receiver; when the magnitude is not [> 0] (zero vector, NaN) the store is
    left exactly as it was. *)
Theorem normalize_in_place (σ : gmap nat (list T)) (N this : nat) (a : list T) :
  σ !! this = Some a -> is_vector N a ->
  exists mag r, Vector.magnitude N a = Value mag
    /\ Vector.normalized N a = Value r /\ is_vector N r
    /\ Vector.normalize N this σ = Value (this, <[this := r]> σ)
    /\ (Tgt mag (lit 0) = false -> Vector.normalize N this σ = Value (this, σ)).
Proof.
  intros Hthis Ha.
  destruct (normalized_is_vector N a Ha) as (mag & r & Hm & Hr & Hlen & Hsame).
  exists mag, r. split; [exact Hm|]. split; [exact Hr|]. split; [exact Hlen|].
  unfold Vector.normalize. rewrite Hthis, Hr. cbn [mbind outcome_bind].
  split; [reflexivity|]. intros Hz. rewrite (Hsame Hz), insert_id by exact Hthis.
  reflexivity.
Qed.

End DistanceFacts.

(** [distance_formula] at two [double] vectors. *)
Lemma distance_formula_witness :
  Vector.distance 2 ([4; 6]%float) ([1; 2]%float)
  = Value (Tsqrt (sigma 2 (fun i =>
             Tmultiplies (Tminus (entry ([4; 6]%float) i) (entry ([1; 2]%float) i))
                         (Tminus (entry ([4; 6]%float) i) (entry ([1; 2]%float) i))))).
Proof. apply (distance_formula 2 ([4; 6]%float) ([1; 2]%float)); reflexivity. Defined.

(** [normalize_in_place] at a store holding [{3, 4}]. *)
Lemma normalize_in_place_witness :
  exists mag r, Vector.magnitude 2 ([3; 4]%float) = Value mag
    /\ Vector.normalized 2 ([3; 4]%float) = Value r /\ is_vector 2 r
    /\ Vector.normalize 2 0 ({[ 0 := [3; 4]%float ]} : gmap nat (list float))
       = Value (0, <[0 := r]> {[ 0 := [3; 4]%float ]})
    /\ (Tgt mag (lit 0) = false ->
        Vector.normalize 2 0 ({[ 0 := [3; 4]%float ]} : gmap nat (list float))
        = Value (0, {[ 0 := [3; 4]%float ]})).
Proof.
  apply (normalize_in_place ({[ 0 := [3; 4]%float ]} : gmap nat (list float))
           2 0 ([3; 4]%float)); reflexivity.
Defined.

(** ** Printing *)

Lemma append_assoc (a b c : string) : (a +:+ b) +:+ c = a +:+ (b +:+ c).
Proof.
  induction a as [|x a IH]; [reflexivity|]. simpl.
  exact (f_equal (String x) IH).
Qed.

Lemma append_nil_r (a : string) : a +:+ "" = a.
Proof.
  induction a as [|x a IH]; [reflexivity|]. simpl.
  exact (f_equal (String x) IH).
Qed.

Lemma render_app {T : Type} (show : T -> string) (a b : list (written T)) :
  render show (a ++ b) = render show a +:+ render show b.
Proof.
  induction a as [|it a IH]; [reflexivity|].
  change (render show ((it :: a) ++ b))
    with (match it with
          | Text s => s +:+ render show (a ++ b)
          | Val x => show x +:+ render show (a ++ b)
          end).
  rewrite IH. destruct it; symmetry; apply append_assoc.
Qed.

(** items of one bracketed listing: each value followed by its separator *)
Lemma listing_loop {T : Type} (n : nat) (e : nat -> outcome T) (f : nat -> T)
    (c0 : list (written T)) :
  (forall i, i < n -> e i = Value (f i)) ->
  for_loop n (fun i cout =>
    x ← e i; Value (cout ++ [Val x; Text (if decide (i < n - 1) then ", " else "")]))
    c0
  = Value (c0 ++ flat_map (fun i =>
             [Val (f i); Text (if decide (i < n - 1) then ", " else "")]) (seq 0 n)).
Proof.
  intros He.
  set (g := fun i => [Val (f i); Text (if decide (i < n - 1) then ", " else "")]).
  destruct (for_loop_inv
    (fun k c => c = c0 ++ flat_map g (seq 0 k))
    (fun i cout =>
       x ← e i; Value (cout ++ [Val x; Text (if decide (i < n - 1) then ", " else "")]))
    n c0) as (r & -> & ->); [| |reflexivity].
  - simpl. rewrite app_nil_r. reflexivity.
  - intros k t Hk ->. rewrite He by exact Hk. cbn [mbind outcome_bind].
    eexists. split; [reflexivity|].
    rewrite seq_S, flat_map_app, app_assoc. reflexivity.
Qed.

Lemma render_listing {T : Type} (show : T -> string) (N : nat) (f : nat -> T) :
  forall n k, k + n = N ->
    render show (flat_map (fun i =>
      [Val (f i); Text (if decide (i < N - 1) then ", " else "")]) (seq k n))
    = String.concat ", " ((fun i => show (f i)) <$> seq k n).
Proof.
  induction n as [|n IH]; intros k Hk; [reflexivity|].
  cbn [seq flat_map app render foldr fmap list_fmap].
  change (foldr _ "" ?l) with (render show l). rewrite IH by lia.
  destruct n as [|n].
  - case_decide; [lia|]. simpl. apply append_nil_r.
  - case_decide; [|lia]. reflexivity.
Qed.

(** [print()] on a vector writes ["("], the components in index order
    separated by [", "] with nothing after the last, and [")"] with a newline,
    after what the stream already holds. *)
Theorem vector_print_renders {T : Type} `{Scalar T} (show : T -> string) (N : nat)
    (v : list T) (cout : list (written T)) :
  is_vector N v ->
  exists out, Vector.print N v cout = Value (cout ++ out)
    /\ render show out
       = "(" +:+ String.concat ", " (show <$> v) +:+ ")" +:+ newline.
Proof.
  intros Hv. as_tabulate v Hv. unfold Vector.print.
  rewrite (listing_loop N (fun i => at_ (tabulate N f) i) f)
    by (intros i Hi; apply at_tabulate; exact Hi).
  cbn [mbind outcome_bind]. eexists. split.
  - rewrite <- !app_assoc. reflexivity.
  - rewrite !render_app, (render_listing show N f N 0) by lia.
    unfold tabulate. rewrite <- list_fmap_compose. simpl.
    rewrite append_nil_r. reflexivity.
Qed.

(** [vector_print_renders] at a vector of length 3, every scalar shown as
    ["x"], on a stream that already holds a line. *)
Lemma vector_print_renders_witness :
  exists out, Vector.print 3 ([1; 2; 3]%float) [Text "v = "] = Value ([Text "v = "] ++ out)
    /\ render (fun _ : float => "x") out
       = "(" +:+ String.concat ", " ((fun _ : float => "x") <$> ([1; 2; 3]%float))
             +:+ ")" +:+ newline.
Proof.
  apply (vector_print_renders (fun _ => "x") 3 ([1; 2; 3]%float)). reflexivity.
Defined.

Example print_three :
  (out ← Vector.print 3 ([1; 2; 3]%float) [];
   Value (render (fun _ : float => "x") out))
  = Value ("(x, x, x)" +:+ newline).
Proof. reflexivity. Qed.

Lemma render_lines {T : Type} (show : T -> string) (items : nat -> list (written T))
    (line : nat -> string) (l : list nat) :
  (forall i, i ∈ l -> render show (items i) = line i) ->
  render show (flat_map items l) = foldr (fun i acc => line i +:+ acc) "" l.
Proof.
  induction l as [|i l IH]; intros Hl; [reflexivity|].
  cbn [flat_map foldr]. rewrite render_app, Hl, IH; [reflexivity| |constructor].
  intros k Hk. apply Hl. constructor. exact Hk.
Qed.

(** [print()] on a matrix writes one line for each row, in order: ["[ "], the
    row's cells separated by [", "], and [" ]"] with a newline. *)
Theorem matrix_print_renders {T : Type} `{Scalar T} (show : T -> string)
    (Rows Cols : nat) (m : list (list T)) (cout : list (written T)) :
  is_matrix Rows Cols m ->
  exists out, Matrix.print Rows Cols m cout = Value (cout ++ out)
    /\ render show out
       = foldr (fun row acc =>
                  ("[ " +:+ String.concat ", " (show <$> row) +:+ " ]" +:+ newline)
                  +:+ acc) "" m.
Proof.
  intros Hm. as_tabulate2 m Hm. unfold Matrix.print.
  set (items := fun i =>
    Text "[ " :: flat_map (fun j =>
       [Val (f i j); Text (if decide (j < Cols - 1) then ", " else "")]) (seq 0 Cols)
    ++ [Text (" ]" +:+ newline)]).
  destruct (for_loop_inv
    (fun k c => c = cout ++ flat_map items (seq 0 k))
    (fun i cout =>
       cout ← for_loop Cols (fun j cout =>
                 x ← at2 (tabulate2 Rows Cols f) i j;
                 Value (cout ++ [Val x; Text (if decide (j < Cols - 1) then ", " else "")]))
               (cout ++ [Text "[ "]);
       Value (cout ++ [Text (" ]" +:+ newline)]))
    Rows cout) as (r & -> & ->).
  - simpl. rewrite app_nil_r. reflexivity.
  - intros k t Hk ->.
    rewrite (listing_loop Cols (fun j => at2 (tabulate2 Rows Cols f) k j) (f k))
      by (intros j Hj; apply at2_tabulate2; assumption).
    cbn [mbind outcome_bind]. eexists. split; [reflexivity|].
    rewrite seq_S, flat_map_app. cbn [flat_map]. unfold items.
    rewrite app_nil_r, <- !app_assoc. reflexivity.
  - eexists. split; [reflexivity|].
    rewrite (render_lines show items
      (fun i => "[ " +:+ String.concat ", " ((fun j => show (f i j)) <$> seq 0 Cols)
                +:+ " ]" +:+ newline)).
    + unfold tabulate2, tabulate. rewrite foldr_fmap. 
      apply foldr_ext; [|reflexivity..]. intros i acc.
      rewrite <- list_fmap_compose. reflexivity.
    + intros i _. unfold items.
      change (render show (Text "[ " :: ?l)) with ("[ " +:+ render show l).
      rewrite render_app, (render_listing show Cols (f i) Cols 0) by lia.
      simpl. rewrite append_nil_r. reflexivity.
Qed.

(** [matrix_print_renders] at a 2 x 2 matrix. *)
Lemma matrix_print_renders_witness :
  exists out, Matrix.print 2 2 ([[1; 2]; [3; 4]]%float) [] = Value ([] ++ out)
    /\ render (fun _ : float => "x") out
       = foldr (fun row acc =>
                  ("[ " +:+ String.concat ", " ((fun _ : float => "x") <$> row)
                   +:+ " ]" +:+ newline) +:+ acc) "" ([[1; 2]; [3; 4]]%float).
Proof.
  apply (matrix_print_renders (fun _ => "x") 2 2 ([[1; 2]; [3; 4]]%float)).
  split; [reflexivity|repeat constructor].
Defined.

Example print_2x2 :
  (out ← Matrix.print 2 2 ([[1; 2]; [3; 4]]%float) [];
   Value (render (fun _ : float => "x") out))
  = Value ("[ x, x ]" +:+ newline +:+ "[ x, x ]" +:+ newline).
Proof. reflexivity. Qed.

(** ** Linearity, over exact scalar types *)

Section ExactLinear.
Context {T : Type} `{ExactScalar T}.

Add Ring T_linear_ring : exact_ring.

Lemma sigma_add (n : nat) (f g : nat -> T) :
  sigma n (fun k => Tplus (f k) (g k)) = Tplus (sigma n f) (sigma n g).
Proof.
  induction n as [|n IH]; [unfold sigma; simpl; ring|].
  rewrite !sigma_S, IH. ring.
Qed.

Lemma sigma_scale_l (n : nat) (c : T) (f : nat -> T) :
  sigma n (fun k => Tmultiplies c (f k)) = Tmultiplies c (sigma n f).
Proof.
  induction n as [|n IH]; [unfold sigma; simpl; ring|].
  rewrite !sigma_S, IH. ring.
Qed.

Lemma sigma_scale_r (n : nat) (c : T) (f : nat -> T) :
  sigma n (fun k => Tmultiplies (f k) c) = Tmultiplies (sigma n f) c.
Proof.
  induction n as [|n IH]; [unfold sigma; simpl; ring|].
  rewrite !sigma_S, IH. ring.
Qed.

(** Over an exact scalar type [transform] is linear in the vector:
    [m.transform(v + w)] is [m.transform(v) + m.transform(w)] and
    [m.transform(v * s)] is [m.transform(v) * s]. *)
Theorem transform_linear_exact (Rows Cols : nat) (m : list (list T))
    (v w : list T) (s : T) :
  Cols <= Rows -> is_matrix Rows Cols m -> is_vector Rows v -> is_vector Rows w ->
  exists mv mw,
    Matrix.transform Rows Cols Rows m v = Value mv
    /\ Matrix.transform Rows Cols Rows m w = Value mw
    /\ (vw ← Vector.op_add Rows v w; Matrix.transform Rows Cols Rows m vw)
       = Vector.op_add Rows mv mw
    /\ (sv ← Vector.op_mul_scalar Rows v s; Matrix.transform Rows Cols Rows m sv)
       = Vector.op_mul_scalar Rows mv s.
Proof.
  intros HCR Hm Hv Hw. as_tabulate2 m Hm. as_tabulate v Hv. as_tabulate w Hw.
  unfold Vector.op_add, Vector.op_mul_scalar.
  rewrite !transform_tabulate, apply_tabulate, apply_scalar_tabulate by exact HCR.
  cbn [mbind outcome_bind]. rewrite !transform_tabulate by exact HCR.
  do 2 eexists. split; [reflexivity|]. split; [reflexivity|].
  rewrite apply_tabulate, apply_scalar_tabulate. split; f_equal.
  - apply tabulate_ext. intros i _. rewrite <- sigma_add. apply sigma_ext.
    intros k _. ring.
  - apply tabulate_ext. intros i _. rewrite <- sigma_scale_r. apply sigma_ext.
    intros k _. ring.
Qed.

(** Over an exact scalar type [dot] is additive and homogeneous in its first
    operand: [dot(a + b, c) == dot(a, c) + dot(b, c)] and
    [dot(a * s, c) == dot(a, c) * s]. *)
Theorem dot_linear_exact (N : nat) (a b c : list T) (s : T) :
  is_vector N a -> is_vector N b -> is_vector N c ->
  exists dac dbc,
    Vector.dot N a c = Value dac /\ Vector.dot N b c = Value dbc
    /\ (ab ← Vector.op_add N a b; Vector.dot N ab c) = Value (Tplus dac dbc)
    /\ (sa ← Vector.op_mul_scalar N a s; Vector.dot N sa c)
       = Value (Tmultiplies dac s).
Proof.
  intros Ha Hb Hc. as_tabulate a Ha. as_tabulate b Hb. as_tabulate c Hc.
  unfold Vector.op_add, Vector.op_mul_scalar.
  rewrite apply_tabulate, apply_scalar_tabulate. cbn [mbind outcome_bind].
  rewrite !dot_tabulate. do 2 eexists.
  split; [reflexivity|]. split; [reflexivity|]. split; f_equal.
  - rewrite <- sigma_add. apply sigma_ext. intros k _. ring.
  - rewrite <- sigma_scale_r. apply sigma_ext. intros k _. ring.
Qed.

End ExactLinear.

(** [transform_linear_exact] at a 2 x 2 [uint32_t] matrix. *)
Lemma transform_linear_exact_witness :
  exists mv mw,
    Matrix.transform 2 2 2 ([[lit 1; lit 2]; [lit 3; lit 4]] : list (list uint32))
      [lit 5; lit 6] = Value mv
    /\ Matrix.transform 2 2 2 ([[lit 1; lit 2]; [lit 3; lit 4]] : list (list uint32))
         [lit 7; lit 8] = Value mw
    /\ (vw ← Vector.op_add 2 ([lit 5; lit 6] : list uint32) [lit 7; lit 8];
        Matrix.transform 2 2 2 [[lit 1; lit 2]; [lit 3; lit 4]] vw)
       = Vector.op_add 2 mv mw
    /\ (sv ← Vector.op_mul_scalar 2 ([lit 5; lit 6] : list uint32) (lit 3);
        Matrix.transform 2 2 2 [[lit 1; lit 2]; [lit 3; lit 4]] sv)
       = Vector.op_mul_scalar 2 mv (lit 3).
Proof.
  apply (transform_linear_exact 2 2 [[lit 1; lit 2]; [lit 3; lit 4]]
           [lit 5; lit 6] [lit 7; lit 8] (lit 3));
    [lia|split; [reflexivity|repeat constructor]|reflexivity|reflexivity].
Defined.

(** [dot_linear_exact] at [uint32_t] vectors. *)
Lemma dot_linear_exact_witness :
  exists dac dbc,
    Vector.dot 2 ([lit 1; lit 2] : list uint32) [lit 5; lit 6] = Value dac
    /\ Vector.dot 2 ([lit 3; lit 4] : list uint32) [lit 5; lit 6] = Value dbc
    /\ (ab ← Vector.op_add 2 ([lit 1; lit 2] : list uint32) [lit 3; lit 4];
        Vector.dot 2 ab [lit 5; lit 6]) = Value (Tplus dac dbc)
    /\ (sa ← Vector.op_mul_scalar 2 ([lit 1; lit 2] : list uint32) (lit 7);
        Vector.dot 2 sa [lit 5; lit 6]) = Value (Tmultiplies dac (lit 7)).
Proof.
  apply (dot_linear_exact 2 [lit 1; lit 2] [lit 3; lit 4] [lit 5; lit 6] (lit 7));
    reflexivity.
Defined.

(** ** The zero vector *)

(** For the default-constructed vector [z] of any length, [dot(z, z)] and
    [magnitude(z)] are 0, whenever [0 * 0], [0 + 0] and [sqrt(0)] are 0 in
    [T], as they are for [double]. *)
Theorem zero_vector_magnitude {T : Type} `{DivScalar T} (N : nat) :
  Tmultiplies (lit 0 : T) (lit 0) = lit 0 ->
  Tplus (lit 0 : T) (lit 0) = lit 0 ->
  Tsqrt (lit 0 : T) = lit 0 ->
  Vector.dot N (Vector.default N) (Vector.default N) = Value (lit 0 : T)
  /\ Vector.magnitude N (Vector.default N) = Value (lit 0 : T).
Proof.
  intros Hm Hp Hs. rewrite default_tabulate, magnitude_tabulate, dot_tabulate.
  rewrite sigma_zero, Hs by assumption. split; reflexivity.
Qed.

(** [zero_vector_magnitude] at [double] and length 4. *)
Lemma zero_vector_magnitude_witness :
  Vector.dot 4 (Vector.default 4) (Vector.default 4) = Value (lit 0 : float)
  /\ Vector.magnitude 4 (Vector.default 4) = Value (lit 0 : float).
Proof. apply (zero_vector_magnitude 4); reflexivity. Defined.
